(** * Bergamot native-messaging host: framing codec and dispatch loop

    A shallow embedding of [native-host/native_host.py].  The host reads
    length-prefixed JSON frames from standard input, dispatches on the
    [type] field of each decoded message and writes one framed response
    to standard output.

    Conventions of the embedding:
    - a Python [str] is the list of its code points ([pystr]);
    - [bytes] are [list byte];
    - a JSON-shaped Python value is a term of [json]; a [dict] is kept as
      an association list in insertion order with pairwise distinct keys;
    - a Python [float] is represented by the text [json.dumps] prints for
      it; turning a float literal into that text is the one numeric
      operation left abstract ([parse_float], as in [json.loads]);
    - exceptions are values of [exn]; [outcome] distinguishes a normal
      return, a raised [Exception] and [SystemExit];
    - the input stream is finite: a read gives fewer bytes than asked for
      only where the stream ends;
    - two limits of the interpreter are part of the [Runtime]: the digit
      limit of the conversion between [int] and [str], and the nesting of
      lists and dicts the [json] module can enter before [RecursionError];
      the second is taken to be the same at every call of [json], and
      the text forms built for f-strings ([str], [repr]) are taken to stay
      within both, as they print values that [json.loads] has read;
    - running out of memory and failures of writing to standard output are
      not modelled;
    - logging is not part of the protocol and is left out. *)

From Stdlib Require Import NArith ZArith List Bool Lia String Ascii.
From Stdlib Require Import Strings.Byte Numbers.DecimalN Numbers.DecimalPos Numbers.DecimalFacts.
Import ListNotations.

Local Open Scope N_scope.

(** ** Python strings and bytes *)

Definition pystr := list N.

(** Code points of an ASCII literal of the source. *)
Definition str (s : string) : pystr :=
  List.map N_of_ascii (list_ascii_of_string s).

Definition pystr_eqb (a b : pystr) : bool :=
  if list_eq_dec N.eq_dec a b then true else false.

Definition bytes := list byte.

(** [len(b)] *)
Definition len {A : Type} (l : list A) : N := N.of_nat (List.length l).

(** ** JSON-shaped Python values *)

Unset Elimination Schemes.
Inductive json : Type :=
| JNull
| JBool (b : bool)
| JInt (z : Z)
| JFloat (text : pystr)
| JStr (s : pystr)
| JArr (items : list json)
| JObj (fields : list (pystr * json)).
Set Elimination Schemes.

Definition dict := list (pystr * json).

Section JsonInduction.
Variable P : json -> Prop.
Hypothesis Hnull : P JNull.
Hypothesis Hbool : forall b, P (JBool b).
Hypothesis Hint : forall z, P (JInt z).
Hypothesis Hfloat : forall t, P (JFloat t).
Hypothesis Hstr : forall s, P (JStr s).
Hypothesis Harr : forall items, Forall P items -> P (JArr items).
Hypothesis Hobj :
  forall fields, Forall (fun kv => P (snd kv)) fields -> P (JObj fields).

Fixpoint json_ind (v : json) : P v :=
  match v with
  | JNull => Hnull
  | JBool b => Hbool b
  | JInt z => Hint z
  | JFloat t => Hfloat t
  | JStr s => Hstr s
  | JArr items =>
      Harr items
        ((fix go (l : list json) : Forall P l :=
            match l with
            | [] => Forall_nil _
            | x :: l' => Forall_cons x (json_ind x) (go l')
            end) items)
  | JObj fields =>
      Hobj fields
        ((fix go (l : dict) : Forall (fun kv => P (snd kv)) l :=
            match l with
            | [] => Forall_nil _
            | kv :: l' => Forall_cons kv (json_ind (snd kv)) (go l')
            end) fields)
  end.
End JsonInduction.

(** *** dict operations *)

(** [key in d] *)
Fixpoint dict_mem (d : dict) (k : pystr) : bool :=
  match d with
  | [] => false
  | (k', _) :: d' => pystr_eqb k' k || dict_mem d' k
  end.

(** [d[k] = v]: an existing key keeps its position, a new key goes last. *)
Fixpoint dict_set (d : dict) (k : pystr) (v : json) : dict :=
  match d with
  | [] => [(k, v)]
  | (k', v') :: d' =>
      if pystr_eqb k' k then (k', v) :: d' else (k', v') :: dict_set d' k v
  end.

(** [d.get(k, default)] *)
Fixpoint dict_get (d : dict) (k : pystr) (default : json) : json :=
  match d with
  | [] => default
  | (k', v) :: d' => if pystr_eqb k' k then v else dict_get d' k default
  end.

(** [{**a, **b}] *)
Definition dict_merge (a b : dict) : dict :=
  fold_left (fun acc kv => dict_set acc (fst kv) (snd kv)) b a.

(** Truth value of a Python object ([not message] is its negation). *)
Definition truthy (v : json) : bool :=
  match v with
  | JNull => false
  | JBool b => b
  | JInt z => negb (Z.eqb z 0)
  | JFloat t => negb (pystr_eqb t (str "0.0") || pystr_eqb t (str "-0.0"))
  | JStr s => match s with [] => false | _ => true end
  | JArr items => match items with [] => false | _ => true end
  | JObj fields => match fields with [] => false | _ => true end
  end.

(** ** The interpreter *)

(** The part of the interpreter the embedding does not compute, and its
    settings:
    - [parse_float] is [float(text)] on a JSON float literal, giving the
      float by the text [json.dumps] prints for it;
    - [str_repr] is [repr] of a [str], which depends on the Unicode
      character database;
    - [int_max_str_digits] is [sys.get_int_max_str_digits()], 4300 unless
      it was changed, and 0 where the conversion between [int] and [str]
      has no limit;
    - [recursion_headroom] is the number of lists and dicts, inside an
      outermost one, that the [json] module can enter before the
      interpreter raises [RecursionError] (with the default recursion
      limit of 1000 and the few frames of the host, somewhat under 1000);
      the outermost list or dict always fits. *)
Class Runtime := {
  parse_float : pystr -> pystr;
  str_repr : pystr -> pystr;
  int_max_str_digits : N;
  recursion_headroom : nat
}.

(** The nesting of lists and dicts the [json] module can enter. *)
Definition nesting_limit `{RT : Runtime} : nat := S recursion_headroom.

(** ** Decimal text of integers ([int.__repr__], [int(text)]) *)

Definition digit_char (d : N) : N := 48 + d.

Fixpoint uint_chars (u : Decimal.uint) : pystr :=
  match u with
  | Decimal.Nil => []
  | Decimal.D0 u' => digit_char 0 :: uint_chars u'
  | Decimal.D1 u' => digit_char 1 :: uint_chars u'
  | Decimal.D2 u' => digit_char 2 :: uint_chars u'
  | Decimal.D3 u' => digit_char 3 :: uint_chars u'
  | Decimal.D4 u' => digit_char 4 :: uint_chars u'
  | Decimal.D5 u' => digit_char 5 :: uint_chars u'
  | Decimal.D6 u' => digit_char 6 :: uint_chars u'
  | Decimal.D7 u' => digit_char 7 :: uint_chars u'
  | Decimal.D8 u' => digit_char 8 :: uint_chars u'
  | Decimal.D9 u' => digit_char 9 :: uint_chars u'
  end.

(** Decimal digits of a natural number, most significant first. *)
Definition N_repr (n : N) : pystr := uint_chars (N.to_uint n).

(** [repr(z)] for a Python int, when it does not raise. *)
Definition int_repr (z : Z) : pystr :=
  match z with
  | Zneg p => 45 :: N_repr (Npos p)
  | _ => N_repr (Z.to_N z)
  end.

Definition is_digit (c : N) : bool := (48 <=? c) && (c <=? 57).

(** Value of a run of decimal digits, read left to right. *)
Definition digits_value (ds : pystr) : N :=
  fold_left (fun acc c => 10 * acc + (c - 48)) ds 0.

(** [_PY_LONG_MAX_STR_DIGITS_THRESHOLD]: shorter texts are never checked
    against the limit. *)
Definition max_str_digits_threshold : N := 640.

(** Whether [repr(z)] raises [ValueError]: [long_to_decimal_string]
    checks a text of more than 640 characters, sign included, and refuses
    more digits than the limit. *)
Definition repr_exceeds_limit `{RT : Runtime} (z : Z) : bool :=
  let digits := len (N_repr (Z.abs_N z)) in
  let strlen := digits + (if (z <? 0)%Z then 1 else 0) in
  (max_str_digits_threshold <? strlen)
  && (0 <? int_max_str_digits) && (int_max_str_digits <? digits).

(** Whether [int(text)] raises [ValueError] on a run of decimal digits:
    [PyLong_FromString] checks more than 640 digits against the limit. *)
Definition parse_exceeds_limit `{RT : Runtime} (digits : pystr) : bool :=
  (max_str_digits_threshold <? len digits)
  && (0 <? int_max_str_digits) && (int_max_str_digits <? len digits).

(** ** JSON encoder ([json.dumps] with its defaults) *)

Definition hex_char (d : N) : N := if d <? 10 then 48 + d else 87 + d.

(** The four lower-case hex digits of ["\\u{0:04x}".format(n)]. *)
Definition hex4_chars (n : N) : pystr :=
  [ hex_char (N.land (N.shiftr n 12) 15); hex_char (N.land (N.shiftr n 8) 15);
    hex_char (N.land (N.shiftr n 4) 15); hex_char (N.land n 15) ].

Definition u_escape (n : N) : pystr := 92 :: 117 :: hex4_chars n.

(** One character under [ESCAPE_ASCII]/[ESCAPE_DCT] of [json.encoder]. *)
Definition escape_char (c : N) : pystr :=
  if c =? 34 then [92; 34]
  else if c =? 92 then [92; 92]
  else if c =? 10 then [92; 110]
  else if c =? 13 then [92; 114]
  else if c =? 9 then [92; 116]
  else if c =? 12 then [92; 102]
  else if c =? 8 then [92; 98]
  else if (32 <=? c) && (c <=? 126) then [c]
  else if c <? 65536 then u_escape c
  else
    let v := c - 65536 in
    u_escape (N.lor 55296 (N.land (N.shiftr v 10) 1023))
      ++ u_escape (N.lor 56320 (N.land v 1023)).

(** [py_encode_basestring_ascii] *)
Definition encode_basestring_ascii (s : pystr) : pystr :=
  34 :: flat_map escape_char s ++ [34].

(** [sep.join(parts)] *)
Fixpoint join (sep : pystr) (parts : list pystr) : pystr :=
  match parts with
  | [] => []
  | [p] => p
  | p :: ps => p ++ sep ++ join sep ps
  end.

Definition item_separator : pystr := [44; 32].
Definition key_separator : pystr := [58; 32].

(** The text [json.dumps] builds for a value, when it does not raise. *)
Fixpoint json_text (v : json) : pystr :=
  match v with
  | JNull => str "null"
  | JBool true => str "true"
  | JBool false => str "false"
  | JInt z => int_repr z
  | JFloat t => t
  | JStr s => encode_basestring_ascii s
  | JArr items => 91 :: join item_separator (List.map json_text items) ++ [93]
  | JObj fields =>
      123 :: join item_separator
               (List.map (fun kv => encode_basestring_ascii (fst kv)
                                     ++ key_separator ++ json_text (snd kv))
                         fields) ++ [125]
  end.

(** Nesting depth of arrays and objects. *)
Fixpoint json_depth (v : json) : nat :=
  match v with
  | JArr items => S (fold_right (fun x m => Nat.max (json_depth x) m) O items)
  | JObj fields => S (fold_right (fun kv m => Nat.max (json_depth (snd kv)) m) O fields)
  | _ => O
  end.

(** No int inside the value is too long to be printed. *)
Fixpoint ints_printable `{RT : Runtime} (v : json) : bool :=
  match v with
  | JInt z => negb (repr_exceeds_limit z)
  | JArr items => forallb ints_printable items
  | JObj fields => forallb (fun kv => ints_printable (snd kv)) fields
  | _ => true
  end.

(** The value is within the limits of the interpreter. *)
Definition within_limits `{RT : Runtime} (v : json) : bool :=
  (json_depth v <=? nesting_limit)%nat && ints_printable v.

(** [json.dumps(v)]; [None] stands for the exception the encoder raises:
    [RecursionError] when it has to enter more nested lists and dicts
    than the interpreter allows (it enters one per list or dict, empty or
    not), [ValueError] when an int is longer than the digit limit.  The
    encoder visits the whole value, so it raises exactly when the value
    has such a part. *)
Definition json_dumps `{RT : Runtime} (v : json) : option pystr :=
  if within_limits v then Some (json_text v) else None.

(** ** JSON decoder ([json.loads], the scanner of [json.decoder]) *)

Definition is_whitespace (c : N) : bool :=
  (c =? 32) || (c =? 9) || (c =? 10) || (c =? 13).

Fixpoint skip_ws (s : pystr) : pystr :=
  match s with
  | c :: s' => if is_whitespace c then skip_ws s' else s
  | [] => []
  end.

Definition hex_value (c : N) : option N :=
  if (48 <=? c) && (c <=? 57) then Some (c - 48)
  else if (97 <=? c) && (c <=? 102) then Some (c - 87)
  else if (65 <=? c) && (c <=? 70) then Some (c - 55)
  else None.

(** Four hex digits, accumulated as [c <<= 4; c |= digit]. *)
Definition hex4 (h1 h2 h3 h4 : N) : option N :=
  match hex_value h1, hex_value h2, hex_value h3, hex_value h4 with
  | Some a, Some b, Some c, Some d =>
      Some (N.lor (N.shiftl (N.lor (N.shiftl (N.lor (N.shiftl a 4) b) 4) c) 4) d)
  | _, _, _, _ => None
  end.

Definition is_high_surrogate (c : N) : bool := (55296 <=? c) && (c <=? 56319).
Definition is_low_surrogate (c : N) : bool := (56320 <=? c) && (c <=? 57343).

(** [Py_UNICODE_JOIN_SURROGATES] *)
Definition join_surrogates (hi lo : N) : N :=
  N.lor (N.shiftl (N.land hi 1023) 10) (N.land lo 1023) + 65536.

(** The character a backslash escape other than [\u] stands for. *)
Definition unescape (e : N) : option N :=
  if e =? 34 then Some 34
  else if e =? 92 then Some 92
  else if e =? 47 then Some 47
  else if e =? 98 then Some 8
  else if e =? 102 then Some 12
  else if e =? 110 then Some 10
  else if e =? 114 then Some 13
  else if e =? 116 then Some 9
  else None.

Definition push_char (c : N) (r : option (pystr * pystr)) : option (pystr * pystr) :=
  match r with
  | Some (x, rest) => Some (c :: x, rest)
  | None => None
  end.

(** [scanstring] in strict mode, started just after the opening quote:
    the decoded string and the input after the closing quote. *)
Fixpoint scanstring (s : pystr) : option (pystr * pystr) :=
  match s with
  | [] => None
  | c :: s1 =>
      if c =? 34 then Some ([], s1)
      else if c =? 92 then
        match s1 with
        | [] => None
        | e :: s2 =>
            if e =? 117 then
              match s2 with
              | h1 :: h2 :: h3 :: h4 :: s3 =>
                  match hex4 h1 h2 h3 h4 with
                  | None => None
                  | Some u =>
                      if is_high_surrogate u then
                        match s3 with
                        | b :: x :: k1 :: k2 :: k3 :: k4 :: s4 =>
                            if (b =? 92) && (x =? 117) then
                              match hex4 k1 k2 k3 k4 with
                              | None => None
                              | Some u2 =>
                                  if is_low_surrogate u2
                                  then push_char (join_surrogates u u2) (scanstring s4)
                                  else push_char u (scanstring s3)
                              end
                            else push_char u (scanstring s3)
                        | _ => push_char u (scanstring s3)
                        end
                      else push_char u (scanstring s3)
                  end
              | _ => None
              end
            else
              match unescape e with
              | Some c' => push_char c' (scanstring s2)
              | None => None
              end
        end
      else if c <=? 31 then None
      else push_char c (scanstring s1)
  end.

(** The longest run of decimal digits at the head of the input. *)
Fixpoint span_digits (s : pystr) : pystr * pystr :=
  match s with
  | c :: s' =>
      if is_digit c then let (ds, r) := span_digits s' in (c :: ds, r)
      else ([], s)
  | [] => ([], [])
  end.

Definition starts_with (p s : pystr) : bool := pystr_eqb (firstn (List.length p) s) p.

Section Decoder.
Context {RT : Runtime}.

(** [_match_number]: an optional minus sign, then a zero or a run of
    digits with a non-zero head, an optional fraction (a dot and at least
    one digit) and an optional exponent (e or E, an optional sign, at
    least one digit).  A fraction or an exponent makes a float; without
    them the digits go to [int], which raises [ValueError] beyond the
    digit limit ([None], as for no match). *)
Definition match_sign (s : pystr) : pystr * pystr :=
  match s with
  | c :: t => if c =? 45 then ([45], t) else ([], s)
  | [] => ([], s)
  end.

Definition match_integer (s : pystr) : option (pystr * pystr) :=
  match s with
  | c :: t =>
      if (49 <=? c) && (c <=? 57)
      then let (ds, r) := span_digits t in Some (c :: ds, r)
      else if c =? 48 then Some ([48], t)
      else None
  | [] => None
  end.

Definition match_frac (s : pystr) : pystr * pystr :=
  match s with
  | p :: d :: t =>
      if (p =? 46) && is_digit d
      then let (ds, r) := span_digits t in (p :: d :: ds, r)
      else ([], s)
  | _ => ([], s)
  end.

Definition match_exp (s : pystr) : pystr * pystr :=
  match s with
  | e :: t =>
      if (e =? 101) || (e =? 69) then
        let (sg, t1) :=
          match t with
          | c :: t' => if (c =? 45) || (c =? 43) then ([c], t') else ([], t)
          | [] => ([], t)
          end in
        let (ds, r) := span_digits t1 in
        match ds with
        | [] => ([], s)
        | _ => (e :: sg ++ ds, r)
        end
      else ([], s)
  | [] => ([], s)
  end.

Definition match_number (s : pystr) : option (json * pystr) :=
  let (sign, s1) := match_sign s in
  match match_integer s1 with
  | None => None
  | Some (integer, r1) =>
      let (frac, r2) := match_frac r1 in
      let (exp, r3) := match_exp r2 in
      match frac, exp with
      | [], [] =>
          if parse_exceeds_limit integer then None
          else
            let n := Z.of_N (digits_value integer) in
            Some (JInt (match sign with [] => n | _ => Z.opp n end), r3)
      | _, _ => Some (JFloat (parse_float (sign ++ integer ++ frac ++ exp)), r3)
      end
  end.

(** The element loop of [_parse_array], entered at the first element;
    [scan] is [scan_once], [n] bounds the iterations by the input length. *)
Fixpoint parse_array_loop (scan : pystr -> option (json * pystr))
    (n : nat) (s : pystr) (acc : list json) : option (json * pystr) :=
  match n with
  | O => None
  | S n' =>
      match scan s with
      | None => None
      | Some (val, s1) =>
          let acc' := acc ++ [val] in
          match skip_ws s1 with
          | c :: s2 =>
              if c =? 93 then Some (JArr acc', s2)
              else if c =? 44 then parse_array_loop scan n' (skip_ws s2) acc'
              else None
          | [] => None
          end
      end
  end.

(** [_parse_array], started just after the opening bracket. *)
Definition parse_array (scan : pystr -> option (json * pystr)) (s : pystr)
  : option (json * pystr) :=
  match skip_ws s with
  | c :: t =>
      if c =? 93 then Some (JArr [], t)
      else parse_array_loop scan (List.length (c :: t)) (c :: t) []
  | [] => None
  end.

(** The pair loop of [_parse_object], entered at the first key. *)
Fixpoint parse_object_loop (scan : pystr -> option (json * pystr))
    (n : nat) (s : pystr) (acc : dict) : option (json * pystr) :=
  match n with
  | O => None
  | S n' =>
      match s with
      | q :: t =>
          if q =? 34 then
            match scanstring t with
            | None => None
            | Some (key, s1) =>
                match skip_ws s1 with
                | c :: s2 =>
                    if c =? 58 then
                      match scan (skip_ws s2) with
                      | None => None
                      | Some (val, s3) =>
                          let acc' := dict_set acc key val in
                          match skip_ws s3 with
                          | c' :: s4 =>
                              if c' =? 125 then Some (JObj acc', s4)
                              else if c' =? 44
                              then parse_object_loop scan n' (skip_ws s4) acc'
                              else None
                          | [] => None
                          end
                      end
                    else None
                | [] => None
                end
            end
          else None
      | [] => None
      end
  end.

(** [_parse_object], started just after the opening brace. *)
Definition parse_object (scan : pystr -> option (json * pystr)) (s : pystr)
  : option (json * pystr) :=
  match skip_ws s with
  | c :: t =>
      if c =? 125 then Some (JObj [], t)
      else parse_object_loop scan (List.length (c :: t)) (c :: t) []
  | [] => None
  end.

(** [scan_once]; [budget] is the number of nested arrays and objects the
    interpreter still lets the scanner enter: it enters one at each
    opening brace or bracket, and [RecursionError] is raised ([None])
    where none is left. *)
Fixpoint scan_once (budget : nat) (s : pystr) {struct budget} : option (json * pystr) :=
  match s with
  | [] => None
  | c :: t =>
      if c =? 34 then
        match scanstring t with
        | Some (x, r) => Some (JStr x, r)
        | None => None
        end
      else if c =? 123 then
        match budget with
        | O => None
        | S budget' => parse_object (scan_once budget') t
        end
      else if c =? 91 then
        match budget with
        | O => None
        | S budget' => parse_array (scan_once budget') t
        end
      else if starts_with (str "null") s then Some (JNull, skipn 4 s)
      else if starts_with (str "true") s then Some (JBool true, skipn 4 s)
      else if starts_with (str "false") s then Some (JBool false, skipn 5 s)
      else if starts_with (str "NaN") s then Some (JFloat (str "NaN"), skipn 3 s)
      else if starts_with (str "Infinity") s
      then Some (JFloat (str "Infinity"), skipn 8 s)
      else if starts_with (str "-Infinity") s
      then Some (JFloat (str "-Infinity"), skipn 9 s)
      else match_number s
  end.

(** [json.loads(s)] for a [str]; [None] stands for the exception it
    raises: [JSONDecodeError] for a text that is not JSON, [ValueError]
    for an int literal beyond the digit limit, [RecursionError] for
    nesting beyond what the interpreter allows. *)
Definition json_loads (s : pystr) : option json :=
  if starts_with [65279] s then None
  else
    let s0 := skip_ws s in
    match scan_once nesting_limit s0 with
    | Some (v, r) => match skip_ws r with [] => Some v | _ => None end
    | None => None
    end.
End Decoder.


(** ** Bytes on the wire *)

(** The byte with the value [n mod 256]. *)
Definition byte_of_N (n : N) : byte :=
  match Byte.of_N (N.land n 255) with
  | Some b => b
  | None => x00
  end.

(** [sys.byteorder], which fixes the layout of the native format ['@I']. *)
Inductive byteorder := LittleEndian | BigEndian.

(** [struct.pack('@I', n)]; [None] stands for [struct.error], raised when
    [n] does not fit an unsigned 32-bit integer. *)
Definition struct_pack_I (bo : byteorder) (n : N) : option bytes :=
  if n <? 4294967296 then
    let le := [ byte_of_N n; byte_of_N (N.shiftr n 8);
                byte_of_N (N.shiftr n 16); byte_of_N (N.shiftr n 24) ] in
    Some (match bo with LittleEndian => le | BigEndian => rev le end)
  else None.

(** [struct.unpack('@I', b)[0]]; [None] stands for [struct.error], raised
    when [b] is not exactly four bytes long. *)
Definition struct_unpack_I (bo : byteorder) (b : bytes) : option N :=
  match (match bo with LittleEndian => b | BigEndian => rev b end) with
  | [b0; b1; b2; b3] =>
      Some (N.lor (Byte.to_N b0)
             (N.lor (N.shiftl (Byte.to_N b1) 8)
               (N.lor (N.shiftl (Byte.to_N b2) 16) (N.shiftl (Byte.to_N b3) 24))))
  | _ => None
  end.

(** [s.encode('utf-8')]; [None] stands for [UnicodeEncodeError]
    (a surrogate code point). *)
Definition utf8_encode_char (c : N) : option bytes :=
  if c <? 128 then Some [byte_of_N c]
  else if c <? 2048 then
    Some [byte_of_N (N.lor 192 (N.shiftr c 6)); byte_of_N (N.lor 128 (N.land c 63))]
  else if (55296 <=? c) && (c <=? 57343) then None
  else if c <? 65536 then
    Some [byte_of_N (N.lor 224 (N.shiftr c 12));
          byte_of_N (N.lor 128 (N.land (N.shiftr c 6) 63));
          byte_of_N (N.lor 128 (N.land c 63))]
  else if c <? 1114112 then
    Some [byte_of_N (N.lor 240 (N.shiftr c 18));
          byte_of_N (N.lor 128 (N.land (N.shiftr c 12) 63));
          byte_of_N (N.lor 128 (N.land (N.shiftr c 6) 63));
          byte_of_N (N.lor 128 (N.land c 63))]
  else None.

Fixpoint utf8_encode (s : pystr) : option bytes :=
  match s with
  | [] => Some []
  | c :: s' =>
      match utf8_encode_char c, utf8_encode s' with
      | Some b, Some bs => Some (b ++ bs)
      | _, _ => None
      end
  end.

Definition in_range (lo hi : N) (b : byte) : bool :=
  (lo <=? Byte.to_N b) && (Byte.to_N b <=? hi).

Definition cont_bits (b : byte) : N := N.land (Byte.to_N b) 63.

Definition push_cp (c : N) (r : option pystr) : option pystr :=
  match r with
  | Some s => Some (c :: s)
  | None => None
  end.

(** [b.decode('utf-8')] with strict error handling; [None] stands for
    [UnicodeDecodeError]. *)
Fixpoint utf8_decode (b : bytes) : option pystr :=
  match b with
  | [] => Some []
  | b0 :: r0 =>
      let n0 := Byte.to_N b0 in
      if n0 <? 128 then push_cp n0 (utf8_decode r0)
      else if in_range 194 223 b0 then
        match r0 with
        | b1 :: r1 =>
            if in_range 128 191 b1
            then push_cp (N.lor (N.shiftl (N.land n0 31) 6) (cont_bits b1)) (utf8_decode r1)
            else None
        | _ => None
        end
      else if in_range 224 239 b0 then
        match r0 with
        | b1 :: b2 :: r2 =>
            if in_range (if n0 =? 224 then 160 else 128) (if n0 =? 237 then 159 else 191) b1
               && in_range 128 191 b2
            then push_cp (N.lor (N.shiftl (N.land n0 15) 12)
                            (N.lor (N.shiftl (cont_bits b1) 6) (cont_bits b2)))
                         (utf8_decode r2)
            else None
        | _ => None
        end
      else if in_range 240 244 b0 then
        match r0 with
        | b1 :: b2 :: b3 :: r3 =>
            if in_range (if n0 =? 240 then 144 else 128) (if n0 =? 244 then 143 else 191) b1
               && in_range 128 191 b2 && in_range 128 191 b3
            then push_cp (N.lor (N.shiftl (N.land n0 7) 18)
                            (N.lor (N.shiftl (cont_bits b1) 12)
                              (N.lor (N.shiftl (cont_bits b2) 6) (cont_bits b3))))
                         (utf8_decode r3)
            else None
        | _ => None
        end
      else None
  end.

(** ** Standard streams *)

(** [sys.stdin.buffer.read(n)]: up to [n] bytes, fewer only at the end of
    the stream; the bytes read and the stream that remains. *)
Fixpoint stdin_read (n : N) (stdin : bytes) : bytes * bytes :=
  match stdin with
  | [] => ([], [])
  | b :: rest =>
      if n =? 0 then ([], stdin)
      else let (got, rest') := stdin_read (N.pred n) rest in (b :: got, rest')
  end.

(** [sys.stdout.buffer]: what reached the peer and what is still buffered. *)
Record stdout_state := { flushed : bytes; pending : bytes }.

Definition stdout_write (o : stdout_state) (b : bytes) : stdout_state :=
  {| flushed := flushed o; pending := pending o ++ b |}.

Definition stdout_flush (o : stdout_state) : stdout_state :=
  {| flushed := flushed o ++ pending o; pending := [] |}.

(** ** Exceptions *)

(** What can go wrong inside the [try] of [read_message]: [struct.error],
    [UnicodeDecodeError], or an exception of [json.loads]. *)
Inductive decode_error := StructError | UnicodeDecodeError | JSONLoadsError.

(** An exception as [forward_to_vscode] looks at it: whether it is an
    instance of [requests.exceptions.ConnectionError], of
    [requests.exceptions.Timeout] (a [ConnectTimeout] is both), and [str(e)]. *)
Record exn := {
  is_ConnectionError : bool;
  is_Timeout : bool;
  exn_str : pystr
}.

Inductive outcome (E A : Type) : Type :=
| Return (a : A)
| Raise (e : E)
| SystemExit (code : Z).
Arguments Return {E A} a.
Arguments Raise {E A} e.
Arguments SystemExit {E A} code.

Definition type_name (v : json) : pystr :=
  match v with
  | JNull => str "NoneType"
  | JBool _ => str "bool"
  | JInt _ => str "int"
  | JFloat _ => str "float"
  | JStr _ => str "str"
  | JArr _ => str "list"
  | JObj _ => str "dict"
  end.

(** [AttributeError] for [obj.get] on an object that is not a dict. *)
Definition AttributeError_get (v : json) : exn :=
  {| is_ConnectionError := false; is_Timeout := false;
     exn_str := str "'" ++ type_name v ++ str "' object has no attribute 'get'" |}.

(** [obj.get(k, default)] *)
Definition py_get (v : json) (k : pystr) (default : json) : outcome exn json :=
  match v with
  | JObj d => Return (dict_get d k default)
  | _ => Raise (AttributeError_get v)
  end.

(** ** The world around the process *)

(** [~/.bergamot/port.json] as a lookup finds it: not there, there but
    raising when it is tested, opened or read, or read as text. *)
Inductive file_state :=
| FileAbsent
| FileUnreadable
| FileText (content : pystr).

(** A [requests.Response], by the attributes the host reads. *)
Record Response := {
  status_code : Z;
  text : pystr;
  json_method : json + exn
}.

(** [Response.ok]: [raise_for_status()] raises for 400 to 599 only. *)
Definition ok (r : Response) : bool :=
  negb ((400 <=? status_code r)%Z && (status_code r <? 600)%Z).

Record World := {
  sys_byteorder : byteorder;
  port_file : file_state;
  requests_post : pystr -> json -> Response + exn;
  requests_get : pystr -> Response + exn
}.

Section Host.
Context {RT : Runtime}.

(** *** Text forms of values ([str], [repr], f-strings) *)

Definition float_repr (t : pystr) : pystr :=
  if pystr_eqb t (str "NaN") then str "nan"
  else if pystr_eqb t (str "Infinity") then str "inf"
  else if pystr_eqb t (str "-Infinity") then str "-inf"
  else t.

Fixpoint py_repr (v : json) : pystr :=
  match v with
  | JNull => str "None"
  | JBool true => str "True"
  | JBool false => str "False"
  | JInt z => int_repr z
  | JFloat t => float_repr t
  | JStr s => str_repr s
  | JArr items => 91 :: join item_separator (List.map py_repr items) ++ [93]
  | JObj fields =>
      123 :: join item_separator
               (List.map (fun kv => str_repr (fst kv) ++ key_separator ++ py_repr (snd kv))
                         fields) ++ [125]
  end.

Definition py_str (v : json) : pystr :=
  match v with
  | JStr s => s
  | _ => py_repr v
  end.

(** *** read_message *)

(** The body of the [try] in [read_message], with the input that is left. *)
Definition read_message_try (bo : byteorder) (stdin : bytes)
  : outcome decode_error json * bytes :=
  let (raw_length, stdin1) := stdin_read 4 stdin in
  match raw_length with
  | [] => (SystemExit 0, stdin1)
  | _ =>
      match struct_unpack_I bo raw_length with
      | None => (Raise StructError, stdin1)
      | Some message_length =>
          let (payload, stdin2) := stdin_read message_length stdin1 in
          match utf8_decode payload with
          | None => (Raise UnicodeDecodeError, stdin2)
          | Some message =>
              match json_loads message with
              | None => (Raise JSONLoadsError, stdin2)
              | Some v => (Return v, stdin2)
              end
          end
      end
  end.

(** [read_message()]: [except Exception] turns a failure into [None];
    [SystemExit] is not an [Exception] and passes. *)
Definition read_message (bo : byteorder) (stdin : bytes)
  : outcome decode_error json * bytes :=
  match read_message_try bo stdin with
  | (Raise _, stdin') => (Return JNull, stdin')
  | r => r
  end.

(** *** send_message *)

(** [send_message(message)]: an exception of [json.dumps], of [encode]
    or of [struct.pack] comes before the first write, is caught and
    leaves the stream as it was. *)
Definition send_message (bo : byteorder) (message : json) (out : stdout_state)
  : stdout_state :=
  match json_dumps message with
  | None => out
  | Some text =>
      match utf8_encode text with
      | None => out
      | Some encoded =>
          match struct_pack_I bo (len encoded) with
          | None => out
          | Some header => stdout_flush (stdout_write (stdout_write out header) encoded)
          end
      end
  end.

(** *** get_vscode_port *)

Definition default_port : json := JInt 5000.

Definition get_vscode_port (w : World) : json :=
  match port_file w with
  | FileAbsent => default_port
  | FileUnreadable => default_port
  | FileText content =>
      match json_loads content with
      | Some (JObj data) => dict_get data (str "port") default_port
      | _ => default_port
      end
  end.

(** *** forward_to_vscode *)

(** The body of the [try] in [forward_to_vscode]. *)
Definition forward_try (w : World) (port message : json) : outcome exn dict :=
  match py_get message (str "endpoint") (JStr (str "/visit")) with
  | Return endpoint =>
      match py_get message (str "data") (JObj []) with
      | Return data =>
          let url := str "http://localhost:" ++ py_str port ++ py_str endpoint in
          match requests_post w url data with
          | inr e => Raise e
          | inl response =>
              if ok response then
                match (match text response with
                       | [] => inl JNull
                       | _ => json_method response
                       end) with
                | inl body =>
                    Return [ (str "success", JBool true);
                             (str "status", JInt (status_code response));
                             (str "data", body) ]
                | inr e => Raise e
                end
              else
                Return [ (str "success", JBool false);
                         (str "error",
                          JStr (str "VS Code returned status "
                                  ++ int_repr (status_code response))) ]
          end
      | Raise e => Raise e
      | SystemExit c => SystemExit c
      end
  | Raise e => Raise e
  | SystemExit c => SystemExit c
  end.

Definition failure (msg : pystr) : dict :=
  [ (str "success", JBool false); (str "error", JStr msg) ].

Definition forward_to_vscode (w : World) (message : json) : outcome exn dict :=
  let port := get_vscode_port w in
  match forward_try w port message with
  | Raise e =>
      if is_ConnectionError e
      then Return (failure (str "Cannot connect to VS Code extension. Is it running?"))
      else if is_Timeout e
      then Return (failure (str "Request to VS Code extension timed out"))
      else Return (failure (exn_str e))
  | r => r
  end.

(** *** main *)

Definition py_eq_str (v : json) (s : string) : bool :=
  match v with
  | JStr t => pystr_eqb t (str s)
  | _ => false
  end.

(** The [check_status] probe; the bare [except] catches everything. *)
Definition probe_status (w : World) (port : json) : bool :=
  match requests_get w (str "http://localhost:" ++ py_str port ++ str "/status") with
  | inl response => ok response
  | inr _ => false
  end.

(** The response the [if]/[elif] chain of [main] hands to [send_message]. *)
Definition respond (w : World) (message : json) (msg_type : json) : outcome exn json :=
  if py_eq_str msg_type "ping" then
    match py_get message (str "data") JNull with
    | Return data => Return (JObj [ (str "type", JStr (str "pong")); (str "echo", data) ])
    | Raise e => Raise e
    | SystemExit c => SystemExit c
    end
  else if py_eq_str msg_type "get_port" then
    let port := get_vscode_port w in
    Return (JObj [ (str "type", JStr (str "port")); (str "port", port) ])
  else if py_eq_str msg_type "forward" then
    match forward_to_vscode w message with
    | Return result =>
        Return (JObj (dict_merge [ (str "type", JStr (str "forward_result")) ] result))
    | Raise e => Raise e
    | SystemExit c => SystemExit c
    end
  else if py_eq_str msg_type "check_status" then
    let port := get_vscode_port w in
    let is_running := probe_status w port in
    Return (JObj [ (str "type", JStr (str "status"));
                   (str "vscode_running", JBool is_running);
                   (str "port", port) ])
  else
    Return (JObj [ (str "type", JStr (str "error"));
                   (str "error", JStr (str "Unknown message type: " ++ py_str msg_type)) ]).

Record process := { stdin : bytes; stdout : stdout_state }.

(** How one pass through the body of [while True] ends. *)
Inductive step :=
| Next (p : process)
| Uncaught (e : exn) (p : process)
| Exits (code : Z) (p : process).

Definition main_step (w : World) (p : process) : step :=
  match read_message (sys_byteorder w) (stdin p) with
  | (SystemExit c, rest) => Exits c {| stdin := rest; stdout := stdout p |}
  | (Raise _, rest) => Next {| stdin := rest; stdout := stdout p |}
  | (Return message, rest) =>
      let p' := {| stdin := rest; stdout := stdout p |} in
      if negb (truthy message) then Next p'
      else
        match py_get message (str "type") JNull with
        | Return msg_type =>
            match respond w message msg_type with
            | Return response =>
                Next {| stdin := rest;
                        stdout := send_message (sys_byteorder w) response (stdout p) |}
            | Raise e => Uncaught e p'
            | SystemExit c => Exits c p'
            end
        | Raise e => Uncaught e p'
        | SystemExit c => Exits c p'
        end
  end.

(** [main()]: the loop, for at most [fuel] passes. *)
Fixpoint main (fuel : nat) (w : World) (p : process) : option step :=
  match fuel with
  | O => None
  | S fuel' =>
      match main_step w p with
      | Next p' => main fuel' w p'
      | s => Some s
      end
  end.

(** The [__main__] block: the exit code of the process and its final
    state.  An uncaught [Exception] is logged and becomes exit code 1. *)
Definition script (fuel : nat) (w : World) (p : process) : option (Z * process) :=
  match main fuel w p with
  | Some (Exits c p') => Some (c, p')
  | Some (Uncaught _ p') => Some (1%Z, p')
  | Some (Next _) => None
  | None => None
  end.
End Host.


(** ** Concrete surroundings for examples *)

(** A runtime for the examples, with CPython's default limits.  Its
    [parse_float] and [str_repr] are right on the texts the examples use:
    float literals that are already the [repr] of their float, and
    strings of printable ASCII without quotes or backslashes. *)
Definition example_runtime : Runtime :=
  {| parse_float := fun t => t;
     str_repr := fun t => 39 :: t ++ [39];
     int_max_str_digits := 4300;
     recursion_headroom := 990 |}.

(** A runtime with the smallest digit limit Python accepts and room for
    three nested lists or dicts, for examples at the limits. *)
Definition strict_runtime : Runtime :=
  {| parse_float := fun t => t;
     str_repr := fun t => 39 :: t ++ [39];
     int_max_str_digits := 640;
     recursion_headroom := 2 |}.

(** The empty list inside [n] lists. *)
Fixpoint nested (n : nat) : json :=
  match n with
  | O => JArr []
  | S n' => JArr [nested n']
  end.

Definition ConnectionError (msg : pystr) : exn :=
  {| is_ConnectionError := true; is_Timeout := false; exn_str := msg |}.
Definition ConnectTimeout (msg : pystr) : exn :=
  {| is_ConnectionError := true; is_Timeout := true; exn_str := msg |}.
Definition ReadTimeout (msg : pystr) : exn :=
  {| is_ConnectionError := false; is_Timeout := true; exn_str := msg |}.

(** No port file, nothing listening. *)
Definition offline_world : World :=
  {| sys_byteorder := LittleEndian;
     port_file := FileAbsent;
     requests_post := fun _ _ => inr (ConnectionError (str "refused"));
     requests_get := fun _ => inr (ConnectionError (str "refused")) |}.

(** A companion that answers every request with the given response. *)
Definition answering_world (r : Response) : World :=
  {| sys_byteorder := LittleEndian;
     port_file := FileAbsent;
     requests_post := fun _ _ => inl r;
     requests_get := fun _ => inl r |}.

(** A companion whose requests all raise the given exception. *)
Definition failing_world (e : exn) : World :=
  {| sys_byteorder := LittleEndian;
     port_file := FileAbsent;
     requests_post := fun _ _ => inr e;
     requests_get := fun _ => inr e |}.

Definition with_port_file (f : file_state) (w : World) : World :=
  {| sys_byteorder := sys_byteorder w;
     port_file := f;
     requests_post := requests_post w;
     requests_get := requests_get w |}.

Definition empty_stdout : stdout_state := {| flushed := []; pending := [] |}.

Definition quoted (s : string) : pystr := 34 :: str s ++ [34].

(** The text [{"type": "<t>"}]. *)
Definition typed_message_text (t : string) : pystr :=
  [123] ++ quoted "type" ++ str ": " ++ quoted t ++ [125].

(** A well-formed little-endian frame around an ASCII text. *)
Definition ascii_frame (payload : pystr) : bytes :=
  [byte_of_N (len payload); x00; x00; x00] ++ List.map byte_of_N payload.

(** ** Classes of values the codec theorems speak about *)

Definition ascii_text (s : pystr) : bool := forallb (fun c => c <? 128) s.

(** Every float inside the value prints as ASCII text, as
    [float.__repr__] does. *)
Fixpoint floats_printable (v : json) : bool :=
  match v with
  | JFloat t => ascii_text t
  | JArr items => forallb floats_printable items
  | JObj fields => forallb (fun kv => floats_printable (snd kv)) fields
  | _ => true
  end.







(** The ways decoding a frame goes wrong inside [read_message], with the
    input that is left afterwards: a length prefix of one to three bytes,
    a payload (all of it or what the stream still had) that is not UTF-8,
    or one on which [json.loads] raises. *)
Inductive decode_failure {RT : Runtime} (bo : byteorder) : bytes -> bytes -> Prop :=
| malformed_length input :
    input <> [] -> (List.length input < 4)%nat ->
    decode_failure bo input []
| invalid_utf8 header body n payload rest :
    List.length header = 4%nat ->
    struct_unpack_I bo header = Some n ->
    stdin_read n body = (payload, rest) ->
    utf8_decode payload = None ->
    decode_failure bo (header ++ body) rest
| invalid_json header body n payload rest message :
    List.length header = 4%nat ->
    struct_unpack_I bo header = Some n ->
    stdin_read n body = (payload, rest) ->
    utf8_decode payload = Some message ->
    json_loads message = None ->
    decode_failure bo (header ++ body) rest.

(** The text [{"port": <n>}] of a port file. *)
Definition port_file_text (n : string) : pystr :=
  [123] ++ quoted "port" ++ str ": " ++ str n ++ [125].

Definition error_response (msg_type : pystr) : json :=
  JObj [ (str "type", JStr (str "error"));
         (str "error", JStr (str "Unknown message type: " ++ msg_type)) ].

Definition port_response (port : json) : json :=
  JObj [ (str "type", JStr (str "port")); (str "port", port) ].

Definition status_response (running : bool) (port : json) : json :=
  JObj [ (str "type", JStr (str "status"));
         (str "vscode_running", JBool running);
         (str "port", port) ].

Definition success_result (status : Z) (body : json) : dict :=
  [ (str "success", JBool true); (str "status", JInt status); (str "data", body) ].

(** The URL and the body of the POST for a message that is a dict. *)
Definition forward_url `{RT : Runtime} (w : World) (d : dict) : pystr :=
  str "http://localhost:" ++ py_str (get_vscode_port w)
    ++ py_str (dict_get d (str "endpoint") (JStr (str "/visit"))).

Definition forward_data (d : dict) : json := dict_get d (str "data") (JObj []).






(** A scanner that consumes input. *)
Definition consumes (scan : pystr -> option (json * pystr)) : Prop :=
  forall s v r, scan s = Some (v, r) -> (List.length r < List.length s)%nat.

(** ** Helpers of the test suite ([test_native_host.py]) *)

(** [TestNativeHost.encode_message]: the frame around a message; [None]
    stands for an exception of [json.dumps], of [encode] or of
    [struct.pack]. *)
Definition encode_message `{RT : Runtime} (bo : byteorder) (message : json)
  : option bytes :=
  match json_dumps message with
  | None => None
  | Some text =>
      match utf8_encode text with
      | None => None
      | Some encoded =>
          match struct_pack_I bo (len encoded) with
          | None => None
          | Some length => Some (length ++ encoded)
          end
      end
  end.

(** [TestNativeHost.decode_message]: the slices [data[:4]] and
    [data[4:4+length]] never raise; the exceptions of the three decoding
    steps are not caught. *)
Definition decode_message `{RT : Runtime} (bo : byteorder) (data : bytes)
  : outcome decode_error json :=
  match struct_unpack_I bo (firstn 4 data) with
  | None => Raise StructError
  | Some length =>
      match utf8_decode (firstn (N.to_nat length) (skipn 4 data)) with
      | None => Raise UnicodeDecodeError
      | Some message =>
          match json_loads message with
          | None => Raise JSONLoadsError
          | Some v => Return v
          end
      end
  end.

(** The 32-bit value with the four bytes of [n] in the opposite order. *)
Definition byteswap32 (n : N) : N :=
  N.lor (N.shiftl (N.land n 255) 24)
    (N.lor (N.shiftl (N.land (N.shiftr n 8) 255) 16)
       (N.lor (N.shiftl (N.land (N.shiftr n 16) 255) 8) (N.land (N.shiftr n 24) 255))).

Definition other_byteorder (bo : byteorder) : byteorder :=
  match bo with
  | LittleEndian => BigEndian
  | BigEndian => LittleEndian
  end.

(** ** Runs of the loop *)

(** The process a pass of the loop ends in. *)
Definition step_process (s : step) : process :=
  match s with
  | Next p => p
  | Uncaught _ p => p
  | Exits _ p => p
  end.




(** ** The debugging launcher ([scripts/debug-extension.py]) *)

Module DebugExtension.

(** What [find_chrome] asks of the machine: [platform.system()],
    [os.path.exists], [shutil.which] and [os.path.expandvars]. *)
Record Machine := {
  platform_system : string;
  os_path_exists : string -> bool;
  shutil_which : string -> option string;
  os_path_expandvars : string -> string
}.

(** [chrome_paths.get(system, [])] *)
Definition chrome_paths (m : Machine) (system : string) : list string :=
  if String.eqb system "Darwin" then
    [ "/Applications/Google Chrome.app/Contents/MacOS/Google Chrome";
      "/Applications/Google Chrome Canary.app/Contents/MacOS/Google Chrome Canary";
      "/Applications/Chromium.app/Contents/MacOS/Chromium" ]%string
  else if String.eqb system "Windows" then
    [ "C:\Program Files\Google\Chrome\Application\chrome.exe";
      "C:\Program Files (x86)\Google\Chrome\Application\chrome.exe";
      os_path_expandvars m "%LOCALAPPDATA%\Google\Chrome\Application\chrome.exe" ]%string
  else if String.eqb system "Linux" then
    [ "/usr/bin/google-chrome";
      "/usr/bin/google-chrome-stable";
      "/usr/bin/chromium";
      "/usr/bin/chromium-browser" ]%string
  else [].

Definition path_commands : list string :=
  [ "google-chrome"; "google-chrome-stable"; "chromium"; "chrome" ]%string.

(** Truth value of what [shutil.which] returns. *)
Definition found_on_path (m : Machine) (cmd : string) : bool :=
  match shutil_which m cmd with
  | Some path => negb (String.eqb path EmptyString)
  | None => false
  end.

(** [find_chrome()]; [None] stands for the exception "Chrome not found". *)
Definition find_chrome (m : Machine) : option string :=
  match find (os_path_exists m) (chrome_paths m (platform_system m)) with
  | Some path => Some path
  | None => find (found_on_path m) path_commands
  end.

(** The parsed command line. *)
Record Args := {
  url : option string;
  auto_devtools : bool;
  keep_profile : bool;
  headless : bool;
  verbose : bool;
  test : bool
}.

(** [args.url or 'chrome://extensions'] *)
Definition start_url (a : Args) : string :=
  match url a with
  | Some u => if String.eqb u EmptyString then "chrome://extensions"%string else u
  | None => "chrome://extensions"%string
  end.

(** The [chrome_args] list [launch_chrome] hands to [subprocess.Popen]. *)
Definition chrome_args (chrome_path profile_dir extension_dir : string) (a : Args)
  : list string :=
  let args0 :=
    [ chrome_path;
      String.append "--user-data-dir=" profile_dir;
      String.append "--load-extension=" extension_dir;
      "--no-first-run"%string;
      "--no-default-browser-check"%string ] in
  let args1 :=
    if auto_devtools a then args0 ++ ["--auto-open-devtools-for-tabs"%string] else args0 in
  let args2 := if headless a then args1 ++ ["--headless=new"%string] else args1 in
  let args3 :=
    if verbose a then args2 ++ ["--enable-logging"%string; "--v=1"%string] else args2 in
  args3 ++ [start_url a].

(** The fields of a [ChromeExtensionDebugger] the profile handling uses. *)
Record Debugger := {
  extension_dir : string;
  temp_profile : option string
}.

(** [__init__] *)
Definition init (extension_dir : string) : Debugger :=
  {| extension_dir := extension_dir; temp_profile := None |}.

(** [create_debug_profile(keep_profile)]: the profile directory and the
    debugger afterwards; [kept] is the path of [~/.pkm-chrome-debug] and
    [fresh] the directory [tempfile.mkdtemp] makes (a failure to make
    either directory is not modelled). *)
Definition create_debug_profile (kept fresh : string) (keep : bool) (self : Debugger)
  : string * Debugger :=
  if keep then (kept, self)
  else (fresh, {| extension_dir := extension_dir self; temp_profile := Some fresh |}).

(** [cleanup()]: the directory handed to [shutil.rmtree], if any. *)
Definition cleanup (exists_ : string -> bool) (self : Debugger) : option string :=
  match temp_profile self with
  | Some dir =>
      if negb (String.eqb dir EmptyString) && exists_ dir then Some dir else None
  | None => None
  end.

(** [launch_chrome(args)] up to the call of [subprocess.Popen]: the
    argument list and the debugger afterwards; [None] when [find_chrome]
    raises, which happens before any profile is made. *)
Definition launch_chrome (m : Machine) (kept fresh : string) (a : Args) (self : Debugger)
  : option (list string) * Debugger :=
  match find_chrome m with
  | None => (None, self)
  | Some chrome_path =>
      let (profile_dir, self') := create_debug_profile kept fresh (keep_profile a) self in
      (Some (chrome_args chrome_path profile_dir (extension_dir self') a), self')
  end.

End DebugExtension.

(** * Properties *)

(** ** The dispatch loop *)

Section HostFacts.
Context {RT : Runtime}.

Lemma stdin_read_nil n : stdin_read n [] = ([], []).
Proof. reflexivity. Qed.

Lemma stdin_read_empty_iff input : fst (stdin_read 4 input) = [] <-> input = [].
Proof.
  split; intros H; [|subst; reflexivity].
  destruct input as [|b rest]; [reflexivity|].
  simpl in H. destruct (stdin_read 3 rest); discriminate.
Qed.

Lemma read_message_eof bo : read_message bo [] = (SystemExit 0, []).
Proof. reflexivity. Qed.

Lemma read_message_of_try bo input :
  read_message bo input =
  match read_message_try bo input with
  | (Raise _, rest) => (Return JNull, rest)
  | r => r
  end.
Proof. reflexivity. Qed.

Lemma dict_get_nonempty d k t : dict_get d k JNull = JStr t -> d <> [].
Proof. destruct d; [discriminate|congruence]. Qed.

Lemma truthy_dict_with_type d t :
  dict_get d (str "type") JNull = JStr t -> truthy (JObj d) = true.
Proof. destruct d; [discriminate|reflexivity]. Qed.

Lemma py_eq_str_true t s : pystr_eqb t (str s) = true -> t = str s.
Proof. unfold pystr_eqb. destruct (list_eq_dec N.eq_dec t (str s)); congruence. Qed.

Lemma pystr_eqb_refl t : pystr_eqb t t = true.
Proof. unfold pystr_eqb. destruct (list_eq_dec N.eq_dec t t); congruence. Qed.

Lemma pystr_eqb_neq a b : a <> b -> pystr_eqb a b = false.
Proof. unfold pystr_eqb. destruct (list_eq_dec N.eq_dec a b); congruence. Qed.

Lemma pystr_eqb_eq a b : pystr_eqb a b = true <-> a = b.
Proof.
  unfold pystr_eqb. destruct (list_eq_dec N.eq_dec a b); split; congruence.
Qed.

(** One pass of the loop on a message that is a dict with a string
    [type]: the response goes through [send_message], the loop goes on. *)
Lemma main_step_dict w p d rest msg_type :
  read_message (sys_byteorder w) (stdin p) = (Return (JObj d), rest) ->
  d <> [] ->
  dict_get d (str "type") JNull = msg_type ->
  main_step w p =
  match respond w (JObj d) msg_type with
  | Return response =>
      Next {| stdin := rest;
              stdout := send_message (sys_byteorder w) response (stdout p) |}
  | Raise e => Uncaught e {| stdin := rest; stdout := stdout p |}
  | SystemExit c => Exits c {| stdin := rest; stdout := stdout p |}
  end.
Proof.
  intros Hread Hd Hty. unfold main_step. rewrite Hread.
  destruct d as [|kv d']; [congruence|]. simpl truthy. simpl negb. cbv iota.
  unfold py_get. rewrite Hty. reflexivity.
Qed.

(** A [type] that is none of the four known strings, a missing [type]
    ([None]) included, is reported with its [str] form. *)
Lemma main_step_unknown w p d rest msg_type :
  read_message (sys_byteorder w) (stdin p) = (Return (JObj d), rest) ->
  d <> [] ->
  dict_get d (str "type") JNull = msg_type ->
  py_eq_str msg_type "ping" = false -> py_eq_str msg_type "get_port" = false ->
  py_eq_str msg_type "forward" = false -> py_eq_str msg_type "check_status" = false ->
  main_step w p =
  Next {| stdin := rest;
          stdout := send_message (sys_byteorder w) (error_response (py_str msg_type))
                      (stdout p) |}.
Proof.
  intros Hread Hd Hty H1 H2 H3 H4.
  rewrite (main_step_dict w p d rest msg_type Hread Hd Hty).
  unfold respond. rewrite H1, H2, H3, H4. reflexivity.
Qed.
End HostFacts.

Section DispatchLoop.
Context {RT : Runtime}.
Variable w : World.
Let bo := sys_byteorder w.

Lemma stdin_read_firstn n input :
  stdin_read n input = (firstn (N.to_nat n) input, skipn (N.to_nat n) input).
Proof.
  revert n. induction input as [|b l IH]; intros n; simpl.
  - rewrite firstn_nil, skipn_nil. reflexivity.
  - destruct (N.eqb_spec n 0) as [->|Hn]; [reflexivity|].
    rewrite IH. replace (N.to_nat n) with (S (N.to_nat (N.pred n))) by lia.
    reflexivity.
Qed.

Lemma stdin_read_4_short input :
  input <> [] -> (List.length input < 4)%nat ->
  stdin_read 4 input = (input, []).
Proof.
  destruct input as [|a [|b [|c [|d l]]]]; simpl; intros; try reflexivity;
    try congruence; lia.
Qed.

Lemma stdin_read_4_header header body :
  List.length header = 4%nat -> stdin_read 4 (header ++ body) = (header, body).
Proof.
  destruct header as [|a [|b [|c [|d [|e l]]]]]; simpl; intros; try discriminate.
  destruct body; reflexivity.
Qed.

Lemma struct_unpack_I_length b n :
  struct_unpack_I bo b = Some n -> List.length b = 4%nat.
Proof.
  unfold struct_unpack_I. intros H.
  destruct bo.
  - destruct b as [|a [|b1 [|c [|d [|e l]]]]]; try discriminate; reflexivity.
  - rewrite <- length_rev.
    destruct (rev b) as [|a [|b1 [|c [|d [|e l]]]]]; try discriminate; reflexivity.
Qed.

(** Each way of failing ends the [try] with an exception. *)
Lemma decode_failure_raises input rest :
  decode_failure bo input rest ->
  exists e, read_message_try bo input = (Raise e, rest).
Proof.
  intros H. destruct H as [input Hne Hlen|header body n payload rest Hh Hu Hr Hd
                          |header body n payload rest message Hh Hu Hr Hd Hj].
  - exists StructError. unfold read_message_try.
    rewrite (stdin_read_4_short input Hne Hlen).
    destruct input as [|b l]; [congruence|].
    destruct (struct_unpack_I bo (b :: l)) eqn:E; [|reflexivity].
    apply struct_unpack_I_length in E. lia.
  - exists UnicodeDecodeError. unfold read_message_try.
    rewrite (stdin_read_4_header header body Hh).
    destruct header as [|b l]; [discriminate|].
    rewrite Hu, Hr, Hd. reflexivity.
  - exists JSONLoadsError. unfold read_message_try.
    rewrite (stdin_read_4_header header body Hh).
    destruct header as [|b l]; [discriminate|].
    rewrite Hu, Hr, Hd, Hj. reflexivity.
Qed.

Lemma stdin_read_app n input got rest :
  stdin_read n input = (got, rest) -> input = got ++ rest.
Proof.
  revert n got rest. induction input as [|b l IH]; intros n got rest H; simpl in H.
  - injection H as <- <-. reflexivity.
  - destruct (n =? 0).
    + injection H as <- <-. reflexivity.
    + destruct (stdin_read (N.pred n) l) as [g r] eqn:E.
      injection H as <- <-. simpl. f_equal. eapply IH; eassumption.
Qed.

(** Conversely, an exception inside the [try] is one of those failures. *)
Lemma raises_decode_failure input rest e :
  read_message_try bo input = (Raise e, rest) -> decode_failure bo input rest.
Proof.
  unfold read_message_try. intros H.
  destruct (stdin_read 4 input) as [raw r1] eqn:E4.
  destruct raw as [|b0 raw']; [discriminate|].
  destruct (struct_unpack_I bo (b0 :: raw')) as [n|] eqn:Eu.
  - destruct (stdin_read n r1) as [payload r2] eqn:Er.
    pose proof (stdin_read_app _ _ _ _ E4) as ->.
    pose proof (struct_unpack_I_length _ _ Eu) as Hl.
    destruct (utf8_decode payload) as [message|] eqn:Ed.
    + destruct (json_loads message) eqn:Ej; [discriminate|].
      injection H as _ <-. eapply invalid_json; eassumption.
    + injection H as _ <-. eapply invalid_utf8; eassumption.
  - injection H as _ <-.
    rewrite stdin_read_firstn in E4. change (N.to_nat 4) with 4%nat in E4.
    pose proof (f_equal fst E4) as Eraw. pose proof (f_equal snd E4) as Er1.
    cbn [fst snd] in Eraw, Er1. clear E4.
    destruct (Nat.lt_ge_cases (List.length input) 4) as [Hlt|Hge].
    + rewrite firstn_all2 in Eraw by lia. rewrite skipn_all2 in Er1 by lia.
      subst r1. apply malformed_length; [|assumption].
      intros ->. discriminate Eraw.
    + exfalso. assert (Hl : List.length (b0 :: raw') = 4%nat).
      { rewrite <- Eraw, length_firstn. lia. }
      revert Eu. unfold struct_unpack_I. destruct bo.
      * destruct raw' as [|b1 [|b2 [|b3 [|b4 l]]]]; try discriminate Hl. discriminate.
      * rewrite <- length_rev in Hl.
        destruct (rev (b0 :: raw')) as [|a1 [|b1 [|b2 [|b3 [|b4 l]]]]];
          try discriminate Hl. discriminate.
Qed.

Lemma main_step_skip p message rest :
  read_message bo (stdin p) = (Return message, rest) ->
  truthy message = false ->
  main_step w p = Next {| stdin := rest; stdout := stdout p |}.
Proof.
  intros Hread Hfalse. unfold main_step. fold bo. rewrite Hread, Hfalse. reflexivity.
Qed.

Lemma main_unfold fuel p :
  main (S fuel) w p =
  match main_step w p with
  | Next p' => main fuel w p'
  | s => Some s
  end.
Proof. reflexivity. Qed.
End DispatchLoop.

(** The port file of the examples is read under every setting of the
    interpreter: one dict, a number of four digits. *)
Lemma json_loads_port_5432 `{RT : Runtime} :
  json_loads (port_file_text "5432") = Some (JObj [ (str "port", JInt 5432) ]).
Proof.
  unfold json_loads, nesting_limit. destruct recursion_headroom; vm_compute; reflexivity.
Qed.

(** *** What the loop does with a message *)

(** C3. A decoded message whose [type] is a string other than [ping],
    [get_port], [forward] and [check_status] is answered with exactly
    [{type: "error", error: "Unknown message type: " + type}], handed to
    [send_message], and the loop goes on. *)
Theorem unknown_type_error_response `{RT : Runtime} (w : World) (p : process)
    (d : dict) (t : pystr) (rest : bytes) :
  read_message (sys_byteorder w) (stdin p) = (Return (JObj d), rest) ->
  dict_get d (str "type") JNull = JStr t ->
  t <> str "ping" -> t <> str "get_port" ->
  t <> str "forward" -> t <> str "check_status" ->
  main_step w p =
  Next {| stdin := rest;
          stdout := send_message (sys_byteorder w)
                      (JObj [ (str "type", JStr (str "error"));
                              (str "error", JStr (str "Unknown message type: " ++ t)) ])
                      (stdout p) |}.
Proof.
  intros Hread Hty H1 H2 H3 H4.
  apply (main_step_unknown w p d rest (JStr t) Hread (dict_get_nonempty _ _ _ Hty) Hty);
    apply pystr_eqb_neq; assumption.
Qed.

Lemma unknown_type_error_response_witness :
  main_step (RT := example_runtime) offline_world
    {| stdin := ascii_frame (typed_message_text "nope"); stdout := empty_stdout |}
  = Next {| stdin := [];
            stdout := send_message (RT := example_runtime) LittleEndian (error_response (str "nope")) empty_stdout |}.
Proof.
  apply (unknown_type_error_response (RT := example_runtime) offline_world
           {| stdin := ascii_frame (typed_message_text "nope"); stdout := empty_stdout |}
           [ (str "type", JStr (str "nope")) ] (str "nope") []);
    try (vm_compute; reflexivity); vm_compute; discriminate.
Defined.

(** C4, as the code has it.  When decoding a frame fails (a length prefix
    of one to three bytes, or a payload, whole or cut short by the end of
    the stream, that is not valid UTF-8 or not valid JSON), [read_message]
    returns [None], the pass ends without an exception, nothing is written
    and the loop goes on with the input that is left. *)
Theorem decode_failure_is_skipped `{RT : Runtime} (w : World) (p : process)
    (rest : bytes) :
  decode_failure (sys_byteorder w) (stdin p) rest ->
  read_message (sys_byteorder w) (stdin p) = (Return JNull, rest)
  /\ main_step w p = Next {| stdin := rest; stdout := stdout p |}
  /\ forall fuel,
       main (S fuel) w p = main fuel w {| stdin := rest; stdout := stdout p |}.
Proof.
  intros Hfail. destruct (decode_failure_raises w _ _ Hfail) as [e He].
  assert (Hread : read_message (sys_byteorder w) (stdin p) = (Return JNull, rest)).
  { rewrite read_message_of_try, He. reflexivity. }
  assert (Hstep : main_step w p = Next {| stdin := rest; stdout := stdout p |}).
  { apply (main_step_skip w p JNull rest Hread). reflexivity. }
  repeat split; try assumption.
  intros fuel. rewrite main_unfold, Hstep. reflexivity.
Qed.

Lemma decode_failure_is_skipped_witness :
  let p := {| stdin := ascii_frame (str "zzz") ++ ascii_frame (typed_message_text "ping");
              stdout := empty_stdout |} in
  main_step (RT := example_runtime) offline_world p
  = Next {| stdin := ascii_frame (typed_message_text "ping"); stdout := empty_stdout |}.
Proof.
  intros p.
  apply (decode_failure_is_skipped (RT := example_runtime) offline_world p
           (ascii_frame (typed_message_text "ping"))).
  apply (invalid_json (RT := example_runtime) LittleEndian [x03; x00; x00; x00]
           (List.map byte_of_N (str "zzz") ++ ascii_frame (typed_message_text "ping"))
           3 (List.map byte_of_N (str "zzz")) _ (str "zzz"));
    vm_compute; reflexivity.
Defined.

(** C4 as stated fails: a frame that declares 20 bytes while the stream
    holds only the 16 bytes of [{"type": "ping"}] is decoded as that
    message and answered with a [pong] frame. *)
Lemma truncated_frame_is_answered :
  let payload := typed_message_text "ping" in
  let input := [x14; x00; x00; x00] ++ List.map byte_of_N payload in
  let p := {| stdin := input; stdout := empty_stdout |} in
  struct_unpack_I LittleEndian (firstn 4 input) = Some 20
  /\ len (skipn 4 input) = 16
  /\ read_message (RT := example_runtime) LittleEndian input
     = (Return (JObj [ (str "type", JStr (str "ping")) ]), [])
  /\ main_step (RT := example_runtime) offline_world p
     = Next {| stdin := [];
               stdout := send_message (RT := example_runtime) LittleEndian
                           (JObj [ (str "type", JStr (str "pong")); (str "echo", JNull) ])
                           empty_stdout |}
  /\ flushed (send_message (RT := example_runtime) LittleEndian
                (JObj [ (str "type", JStr (str "pong")); (str "echo", JNull) ])
                empty_stdout) <> [].
Proof.
  repeat split; try (vm_compute; reflexivity). vm_compute. discriminate.
Qed.

(** C5. When the read of the length prefix returns no bytes, the process
    ends with exit code 0 and its output is what it was. *)
Theorem end_of_stream_exits_zero `{RT : Runtime} (w : World) (p : process)
    (fuel : nat) :
  fst (stdin_read 4 (stdin p)) = [] ->
  script (S fuel) w p = Some (0%Z, p).
Proof.
  intros H. apply (proj1 (stdin_read_empty_iff _)) in H.
  destruct p as [input out]. simpl in H. subst input. reflexivity.
Qed.

Lemma end_of_stream_exits_zero_witness :
  script (RT := example_runtime) 1 offline_world {| stdin := []; stdout := empty_stdout |}
  = Some (0%Z, {| stdin := []; stdout := empty_stdout |}).
Proof.
  apply (end_of_stream_exits_zero (RT := example_runtime) offline_world
           {| stdin := []; stdout := empty_stdout |} 0).
  reflexivity.
Defined.

(** C10. A frame whose payload decodes to a falsy value ([{}], [false],
    [null], [0], [""], [[]]) is passed over like a decode failure: nothing
    is written, no handler runs, the loop goes on. *)
Theorem falsy_message_is_skipped `{RT : Runtime} (w : World) (p : process)
    (message : json) (rest : bytes) :
  read_message_try (sys_byteorder w) (stdin p) = (Return message, rest) ->
  In message [JObj []; JBool false; JNull; JInt 0; JStr []; JArr []] ->
  main_step w p = Next {| stdin := rest; stdout := stdout p |}
  /\ forall fuel,
       main (S fuel) w p = main fuel w {| stdin := rest; stdout := stdout p |}.
Proof.
  intros Htry Hin.
  assert (Hstep : main_step w p = Next {| stdin := rest; stdout := stdout p |}).
  { apply (main_step_skip w p message rest).
    - rewrite read_message_of_try, Htry. reflexivity.
    - simpl in Hin. repeat (destruct Hin as [<-|Hin]; [reflexivity|]). contradiction. }
  split; [assumption|]. intros fuel. rewrite main_unfold, Hstep. reflexivity.
Qed.

Lemma falsy_message_is_skipped_witness :
  main_step (RT := example_runtime) offline_world
    {| stdin := ascii_frame (str "{}"); stdout := empty_stdout |}
  = Next {| stdin := []; stdout := empty_stdout |}.
Proof.
  apply (falsy_message_is_skipped (RT := example_runtime) offline_world
           {| stdin := ascii_frame (str "{}"); stdout := empty_stdout |} (JObj []) []).
  - vm_compute. reflexivity.
  - simpl. auto.
Defined.

(** C7. A [get_port] message is answered with port 5000 when the port file
    is absent or unreadable, and with port 5432 when the file holds
    [{"port": 5432}]. *)
Theorem get_port_response `{RT : Runtime} (w : World) (p : process)
    (d : dict) (rest : bytes) :
  read_message (sys_byteorder w) (stdin p) = (Return (JObj d), rest) ->
  dict_get d (str "type") JNull = JStr (str "get_port") ->
  (port_file w = FileAbsent \/ port_file w = FileUnreadable ->
   main_step w p =
   Next {| stdin := rest;
           stdout := send_message (sys_byteorder w)
                       (JObj [ (str "type", JStr (str "port")); (str "port", JInt 5000) ])
                       (stdout p) |})
  /\ (port_file w = FileText (port_file_text "5432") ->
      main_step w p =
      Next {| stdin := rest;
              stdout := send_message (sys_byteorder w)
                          (JObj [ (str "type", JStr (str "port")); (str "port", JInt 5432) ])
                          (stdout p) |}).
Proof.
  intros Hread Hty.
  rewrite (main_step_dict w p d rest _ Hread (dict_get_nonempty _ _ _ Hty) Hty).
  unfold respond. change (py_eq_str (JStr (str "get_port")) "ping") with false.
  change (py_eq_str (JStr (str "get_port")) "get_port") with true. cbv iota.
  unfold get_vscode_port.
  split.
  - intros [-> | ->]; reflexivity.
  - intros ->. rewrite json_loads_port_5432. reflexivity.
Qed.

Lemma get_port_response_witness :
  let p := {| stdin := ascii_frame (typed_message_text "get_port"); stdout := empty_stdout |} in
  main_step (RT := example_runtime) offline_world p
  = Next {| stdin := [];
            stdout := send_message (RT := example_runtime) LittleEndian (port_response (JInt 5000)) empty_stdout |}
  /\ main_step (RT := example_runtime)
       (with_port_file (FileText (port_file_text "5432")) offline_world) p
     = Next {| stdin := [];
               stdout := send_message (RT := example_runtime) LittleEndian (port_response (JInt 5432)) empty_stdout |}.
Proof.
  intros p. split.
  - apply (get_port_response (RT := example_runtime) offline_world p
             [ (str "type", JStr (str "get_port")) ] []);
      try (vm_compute; reflexivity). left. reflexivity.
  - apply (get_port_response (RT := example_runtime)
             (with_port_file (FileText (port_file_text "5432")) offline_world) p
             [ (str "type", JStr (str "get_port")) ] []);
      vm_compute; reflexivity.
Defined.

(** C9. A [check_status] message never raises: it is answered with exactly
    one response [{type: "status", vscode_running: b, port: N}], where [N]
    is the configured port and [b] holds exactly when the GET of [/status]
    on that port returns a response whose [ok] is true; an exception of
    the request gives [false]. *)
Theorem check_status_response `{RT : Runtime} (w : World) (p : process)
    (d : dict) (rest : bytes) :
  read_message (sys_byteorder w) (stdin p) = (Return (JObj d), rest) ->
  dict_get d (str "type") JNull = JStr (str "check_status") ->
  let N := get_vscode_port w in
  let b := match requests_get w (str "http://localhost:" ++ py_str N ++ str "/status") with
           | inl response => ok response
           | inr _ => false
           end in
  main_step w p =
  Next {| stdin := rest;
          stdout := send_message (sys_byteorder w)
                      (JObj [ (str "type", JStr (str "status"));
                              (str "vscode_running", JBool b);
                              (str "port", N) ])
                      (stdout p) |}.
Proof.
  intros Hread Hty N b.
  rewrite (main_step_dict w p d rest _ Hread (dict_get_nonempty _ _ _ Hty) Hty).
  reflexivity.
Qed.

Lemma check_status_response_witness :
  let r := {| status_code := 200; text := []; json_method := inl JNull |} in
  main_step (RT := example_runtime) (answering_world r)
    {| stdin := ascii_frame (typed_message_text "check_status"); stdout := empty_stdout |}
  = Next {| stdin := [];
            stdout := send_message (RT := example_runtime) LittleEndian (status_response true (JInt 5000))
                        empty_stdout |}.
Proof.
  intros r.
  apply (check_status_response (RT := example_runtime) (answering_world r)
           {| stdin := ascii_frame (typed_message_text "check_status");
              stdout := empty_stdout |}
           [ (str "type", JStr (str "check_status")) ] []);
    vm_compute; reflexivity.
Defined.

(** ** The forwarding handler *)

Section Forwarding.
Context {RT : Runtime}.
Variable w : World.

Lemma forward_try_dict d :
  forward_try w (get_vscode_port w) (JObj d) =
  match requests_post w (forward_url w d) (forward_data d) with
  | inr e => Raise e
  | inl response =>
      if ok response then
        match (match text response with [] => inl JNull | _ => json_method response end) with
        | inl body => Return (success_result (status_code response) body)
        | inr e => Raise e
        end
      else Return (failure (str "VS Code returned status "
                              ++ int_repr (status_code response)))
  end.
Proof. reflexivity. Qed.

Lemma forward_to_vscode_handler message :
  forward_to_vscode w message =
  match forward_try w (get_vscode_port w) message with
  | Raise e =>
      if is_ConnectionError e
      then Return (failure (str "Cannot connect to VS Code extension. Is it running?"))
      else if is_Timeout e
      then Return (failure (str "Request to VS Code extension timed out"))
      else Return (failure (exn_str e))
  | r => r
  end.
Proof. reflexivity. Qed.

Lemma forward_try_never_exits port message c :
  forward_try w port message <> SystemExit c.
Proof.
  unfold forward_try, py_get. destruct message; try discriminate.
  destruct (requests_post w _ _) as [r|e]; [|discriminate].
  destruct (ok r); [|discriminate].
  destruct (text r); [discriminate|]. destruct (json_method r); discriminate.
Qed.

(** The handler turns every exception into a result. *)
Lemma forward_to_vscode_returns message :
  exists result, forward_to_vscode w message = Return result.
Proof.
  rewrite forward_to_vscode_handler.
  destruct (forward_try w (get_vscode_port w) message) as [r|e|c] eqn:E.
  - eauto.
  - destruct (is_ConnectionError e); [eauto|]. destruct (is_Timeout e); eauto.
  - exfalso. exact (forward_try_never_exits _ _ _ E).
Qed.

Lemma ok_iff r : ok r = true <-> (status_code r < 400 \/ 600 <= status_code r)%Z.
Proof.
  unfold ok. rewrite negb_true_iff, andb_false_iff, Z.leb_gt, Z.ltb_ge. reflexivity.
Qed.

Lemma not_ok_iff r : ok r = false <-> (400 <= status_code r < 600)%Z.
Proof.
  unfold ok. rewrite negb_false_iff, andb_true_iff, Z.leb_le, Z.ltb_lt. reflexivity.
Qed.
End Forwarding.

(** C2, as the code has it.  When the companion answers the POST, the
    outcome follows [Response.ok], which holds for every status outside
    400..599 (so for 2xx, and for 1xx and 3xx as well): then the result is
    [{success: true, status, data}] with [data] [null] for an empty body
    and the parsed body otherwise, and when the body does not parse the
    exception is reported by the handler's [except] clauses.  For a status
    in 400..599 the result is
    [{success: false, error: "VS Code returned status <code>"}]. *)
Theorem forward_http_outcome `{RT : Runtime} (w : World) (d : dict) (r : Response) :
  requests_post w (forward_url w d) (forward_data d) = inl r ->
  ((status_code r < 400 \/ 600 <= status_code r)%Z ->
     (text r = [] ->
      forward_to_vscode w (JObj d)
      = Return [ (str "success", JBool true); (str "status", JInt (status_code r));
                 (str "data", JNull) ])
     /\ (forall body, text r <> [] -> json_method r = inl body ->
         forward_to_vscode w (JObj d)
         = Return [ (str "success", JBool true); (str "status", JInt (status_code r));
                    (str "data", body) ])
     /\ (forall e, text r <> [] -> json_method r = inr e ->
         is_ConnectionError e = false -> is_Timeout e = false ->
         forward_to_vscode w (JObj d)
         = Return [ (str "success", JBool false); (str "error", JStr (exn_str e)) ]))
  /\ ((400 <= status_code r < 600)%Z ->
      forward_to_vscode w (JObj d)
      = Return [ (str "success", JBool false);
                 (str "error",
                  JStr (str "VS Code returned status " ++ int_repr (status_code r))) ]).
Proof.
  intros Hpost. rewrite forward_to_vscode_handler, forward_try_dict, Hpost.
  split.
  - intros Hok. apply ok_iff in Hok. rewrite Hok.
    split; [|split].
    + intros ->. reflexivity.
    + intros body Hne Hj. destruct (text r); [congruence|]. rewrite Hj. reflexivity.
    + intros e Hne Hj Hc Ht. destruct (text r); [congruence|].
      rewrite Hj, Hc, Ht. reflexivity.
  - intros Hbad. apply not_ok_iff in Hbad. rewrite Hbad. reflexivity.
Qed.

Lemma forward_http_outcome_witness :
  let created := {| status_code := 201; text := str "[1]"; json_method := inl (JArr [JInt 1]) |} in
  let missing := {| status_code := 404; text := []; json_method := inl JNull |} in
  forward_to_vscode (RT := example_runtime) (answering_world created) (JObj [])
  = Return (success_result 201 (JArr [JInt 1]))
  /\ forward_to_vscode (RT := example_runtime) (answering_world missing) (JObj [])
     = Return (failure (str "VS Code returned status 404")).
Proof.
  intros created missing. split.
  - apply (forward_http_outcome (RT := example_runtime) (answering_world created) [] created);
      try reflexivity; try (simpl; lia). simpl. discriminate.
  - apply (forward_http_outcome (RT := example_runtime) (answering_world missing) [] missing);
      try reflexivity. simpl. lia.
Defined.

(** C2 as stated fails: status 304 is not a 2xx status, yet the result is
    a success. *)
Lemma not_modified_is_success :
  let r := {| status_code := 304; text := []; json_method := inl JNull |} in
  ~ (200 <= status_code r < 300)%Z
  /\ forward_to_vscode (RT := example_runtime) (answering_world r) (JObj [])
     = Return [ (str "success", JBool true); (str "status", JInt 304);
                (str "data", JNull) ]
  /\ forward_to_vscode (RT := example_runtime) (answering_world r) (JObj [])
     <> Return [ (str "success", JBool false);
                 (str "error", JStr (str "VS Code returned status 304")) ].
Proof.
  intros r. split; [simpl; lia|]. split; [reflexivity|]. vm_compute. discriminate.
Qed.

(** C6, as the code has it.  [forward_to_vscode] always returns a result.
    When the POST raises, an exception that is a
    [requests.exceptions.ConnectionError] (a refused connection, an
    unreachable target, and a timeout while connecting, which is a
    [ConnectTimeout]) gives "Cannot connect to VS Code extension. Is it
    running?"; a [Timeout] that is not a [ConnectionError] gives "Request
    to VS Code extension timed out"; any other exception gives its text. *)
Theorem forward_transport_errors `{RT : Runtime} (w : World) (d : dict) (e : exn) :
  (forall message, exists result, forward_to_vscode w message = Return result)
  /\ (requests_post w (forward_url w d) (forward_data d) = inr e ->
      (is_ConnectionError e = true ->
       forward_to_vscode w (JObj d)
       = Return [ (str "success", JBool false);
                  (str "error",
                   JStr (str "Cannot connect to VS Code extension. Is it running?")) ])
      /\ (is_ConnectionError e = false -> is_Timeout e = true ->
          forward_to_vscode w (JObj d)
          = Return [ (str "success", JBool false);
                     (str "error", JStr (str "Request to VS Code extension timed out")) ])
      /\ (is_ConnectionError e = false -> is_Timeout e = false ->
          forward_to_vscode w (JObj d)
          = Return [ (str "success", JBool false); (str "error", JStr (exn_str e)) ])).
Proof.
  split; [apply forward_to_vscode_returns|].
  intros Hpost. rewrite forward_to_vscode_handler, forward_try_dict, Hpost.
  split; [|split].
  - intros ->. reflexivity.
  - intros -> ->. reflexivity.
  - intros -> ->. reflexivity.
Qed.

Lemma forward_transport_errors_witness :
  forward_to_vscode (RT := example_runtime) (failing_world (ReadTimeout (str "read timed out")))
    (JObj [])
  = Return (failure (str "Request to VS Code extension timed out")).
Proof.
  apply (forward_transport_errors (RT := example_runtime)
           (failing_world (ReadTimeout (str "read timed out"))) []
           (ReadTimeout (str "read timed out"))); reflexivity.
Defined.

(** C6 as stated fails: a timeout while connecting is an exceeded timeout,
    and it is reported as a failure to connect. *)
Lemma connect_timeout_reported_as_unreachable :
  let e := ConnectTimeout (str "connect timed out") in
  is_Timeout e = true
  /\ forward_to_vscode (RT := example_runtime) (failing_world e) (JObj [])
     = Return (failure (str "Cannot connect to VS Code extension. Is it running?"))
  /\ forward_to_vscode (RT := example_runtime) (failing_world e) (JObj [])
     <> Return (failure (str "Request to VS Code extension timed out")).
Proof.
  intros e. split; [reflexivity|]. split; [reflexivity|]. vm_compute. discriminate.
Qed.

(** ** The codec *)

(** *** Bit arithmetic *)

Lemma lor_shiftl_add a b k : b < 2 ^ k -> N.lor (N.shiftl a k) b = a * 2 ^ k + b.
Proof.
  intros Hb. rewrite N.shiftl_mul_pow2.
  assert (Hdisjoint : N.land (a * 2 ^ k) b = 0).
  { apply N.bits_inj_0. intros i. rewrite N.land_spec.
    destruct (N.lt_ge_cases i k) as [Hi|Hi].
    - rewrite N.mul_pow2_bits_low by assumption. reflexivity.
    - rewrite <- (N.mod_small b (2 ^ k)) by assumption.
      rewrite N.mod_pow2_bits_high by assumption. apply andb_false_r. }
  rewrite <- N.lxor_lor by assumption.
  symmetry. apply N.add_nocarry_lxor. assumption.
Qed.

Lemma land_15 x : N.land x 15 = x mod 16.
Proof. change 15 with (N.ones 4). apply N.land_ones. Qed.
Lemma land_63 x : N.land x 63 = x mod 64.
Proof. change 63 with (N.ones 6). apply N.land_ones. Qed.
Lemma land_255 x : N.land x 255 = x mod 256.
Proof. change 255 with (N.ones 8). apply N.land_ones. Qed.

Lemma shiftr_div x k : N.shiftr x k = x / 2 ^ k.
Proof. apply N.shiftr_div_pow2. Qed.

Ltac euclid := zify; Z.to_euclidean_division_equations; lia.

(** *** Hexadecimal escapes *)


Lemma hex_char_ascii d : d < 16 -> 48 <= hex_char d < 128.
Proof. unfold hex_char. destruct (N.ltb_spec d 10); lia. Qed.

Lemma hex4_chars_spec n :
  exists a b c d,
    hex4_chars n = [hex_char a; hex_char b; hex_char c; hex_char d]
    /\ a < 16 /\ b < 16 /\ c < 16 /\ d < 16
    /\ (n < 65536 -> ((a * 16 + b) * 16 + c) * 16 + d = n).
Proof.
  exists (N.land (N.shiftr n 12) 15), (N.land (N.shiftr n 8) 15),
         (N.land (N.shiftr n 4) 15), (N.land n 15).
  split; [reflexivity|].
  rewrite !land_15, !shiftr_div.
  change (2 ^ 12) with 4096. change (2 ^ 8) with 256. change (2 ^ 4) with 16.
  repeat split; try (apply N.mod_lt; discriminate).
  intros Hn. euclid.
Qed.



(** *** Surrogate pairs *)









(** *** Strings *)










(** The encoder writes ASCII only, whatever the string. *)
Lemma u_escape_ascii n : Forall (fun c => c < 128) (u_escape n).
Proof.
  unfold u_escape. destruct (hex4_chars_spec n) as (a & b & c & d & E & Ha & Hb & Hc & Hd & _).
  rewrite E.
  pose proof (hex_char_ascii a Ha). pose proof (hex_char_ascii b Hb).
  pose proof (hex_char_ascii c Hc). pose proof (hex_char_ascii d Hd).
  repeat constructor; lia.
Qed.

Lemma escape_char_ascii c : Forall (fun c => c < 128) (escape_char c).
Proof.
  unfold escape_char.
  repeat match goal with
         | |- context [if ?x =? ?y then _ else _] =>
             destruct (N.eqb_spec x y); [repeat constructor; lia|]
         end.
  destruct (N.leb_spec 32 c); destruct (N.leb_spec c 126); cbn [andb];
    try (repeat constructor; lia);
    destruct (c <? 65536); try apply u_escape_ascii;
    apply Forall_app; split; apply u_escape_ascii.
Qed.

Lemma encode_basestring_ascii_ascii s :
  Forall (fun c => c < 128) (encode_basestring_ascii s).
Proof.
  unfold encode_basestring_ascii. constructor; [lia|].
  apply Forall_app. split; [|repeat constructor; lia].
  induction s as [|c s IH]; [constructor|].
  cbn [flat_map]. apply Forall_app. split; [apply escape_char_ascii|assumption].
Qed.


(** *** Integers *)



Lemma uint_chars_digits u : Forall (fun c => is_digit c = true) (uint_chars u).
Proof. induction u; cbn [uint_chars]; constructor; auto. Qed.




Lemma N_repr_digits n : Forall (fun c => is_digit c = true) (N_repr n).
Proof. apply uint_chars_digits. Qed.

Lemma is_digit_range c : is_digit c = true <-> 48 <= c <= 57.
Proof. unfold is_digit. rewrite andb_true_iff, !N.leb_le. reflexivity. Qed.









(** *** Numbers followed by more input *)










Lemma int_repr_ascii z : Forall (fun c => c < 128) (int_repr z).
Proof.
  assert (H : forall n, Forall (fun c => c < 128) (N_repr n)).
  { intros n. eapply Forall_impl; [|apply N_repr_digits].
    intros c Hc. apply is_digit_range in Hc. lia. }
  destruct z; unfold int_repr; auto. constructor; [lia|auto].
Qed.

(** *** Values *)

Lemma starts_with_prefix p s : starts_with p s = true -> exists r, s = p ++ r.
Proof.
  unfold starts_with. rewrite pystr_eqb_eq. intros H.
  exists (skipn (List.length p) s). rewrite <- H at 1. symmetry. apply firstn_skipn.
Qed.

Lemma starts_with_app p r : starts_with p (p ++ r) = true.
Proof.
  unfold starts_with. apply pystr_eqb_eq.
  rewrite firstn_app, Nat.sub_diag, firstn_all. cbn [firstn]. apply List.app_nil_r.
Qed.








Lemma join_cons2 sep p q ps : join sep (p :: q :: ps) = p ++ sep ++ join sep (q :: ps).
Proof. reflexivity. Qed.


Section ScanRoundTrip.
Context {RT : Runtime}.
Variable scan : pystr -> option (json * pystr).



End ScanRoundTrip.

Section ValueRoundTrip.
Context {RT : Runtime}.









Lemma json_dumps_inv v text :
  json_dumps v = Some text -> within_limits v = true /\ text = json_text v.
Proof.
  unfold json_dumps. destruct (within_limits v); [|discriminate].
  intros H. injection H as <-. auto.
Qed.

End ValueRoundTrip.

(** *** Bytes *)

Lemma to_N_byte_of_N n : Byte.to_N (byte_of_N n) = n mod 256.
Proof.
  unfold byte_of_N. rewrite land_255.
  assert (Hlt : n mod 256 < 256) by (apply N.mod_lt; discriminate).
  destruct (Byte.of_N (n mod 256)) as [b|] eqn:E.
  - apply Byte.to_of_N. assumption.
  - apply Byte.of_N_None_iff in E. lia.
Qed.


Lemma lor_add_disjoint a b k : a < 2 ^ k -> b mod 2 ^ k = 0 -> N.lor a b = a + b.
Proof.
  intros Ha Hb.
  assert (Hpos : 2 ^ k <> 0) by (apply N.pow_nonzero; discriminate).
  assert (E : b = N.shiftl (b / 2 ^ k) k).
  { rewrite N.shiftl_mul_pow2. pose proof (N.div_mod b (2 ^ k) Hpos). lia. }
  rewrite E at 1. rewrite N.lor_comm, lor_shiftl_add by assumption.
  pose proof (N.div_mod b (2 ^ k) Hpos). lia.
Qed.

Lemma unpack_le_bytes n :
  n < 4294967296 ->
  N.lor (n mod 256)
    (N.lor (N.shiftl ((n / 256) mod 256) 8)
       (N.lor (N.shiftl ((n / 65536) mod 256) 16) (N.shiftl ((n / 16777216) mod 256) 24)))
  = n.
Proof.
  intros Hn. rewrite !N.shiftl_mul_pow2.
  change (2 ^ 8) with 256. change (2 ^ 16) with 65536. change (2 ^ 24) with 16777216.
  rewrite (lor_add_disjoint (n / 65536 mod 256 * 65536) _ 24)
    by (change (2 ^ 24) with 16777216; euclid).
  rewrite (lor_add_disjoint (n / 256 mod 256 * 256) _ 16)
    by (change (2 ^ 16) with 65536; euclid).
  rewrite (lor_add_disjoint (n mod 256) _ 8)
    by (change (2 ^ 8) with 256; euclid).
  euclid.
Qed.

(** [struct.unpack] reads back what [struct.pack] writes, in either byte
    order, and the packed length is four bytes. *)
Lemma struct_unpack_pack bo n header :
  struct_pack_I bo n = Some header ->
  List.length header = 4%nat /\ struct_unpack_I bo header = Some n.
Proof.
  unfold struct_pack_I. destruct (N.ltb_spec n 4294967296) as [Hn|Hn]; [|discriminate].
  intros H. apply (f_equal (fun o => match o with Some x => x | None => [] end)) in H.
  cbv beta iota in H. subst header.
  assert (E : struct_unpack_I LittleEndian
                [byte_of_N n; byte_of_N (N.shiftr n 8); byte_of_N (N.shiftr n 16);
                 byte_of_N (N.shiftr n 24)] = Some n).
  { unfold struct_unpack_I. rewrite !to_N_byte_of_N, !shiftr_div.
    change (2 ^ 8) with 256. change (2 ^ 16) with 65536. change (2 ^ 24) with 16777216.
    rewrite unpack_le_bytes by assumption. reflexivity. }
  destruct bo; split; try reflexivity; exact E.
Qed.

Lemma struct_pack_I_some bo n :
  n < 4294967296 -> exists header, struct_pack_I bo n = Some header.
Proof.
  intros Hn. unfold struct_pack_I. destruct (N.ltb_spec n 4294967296); [eauto|lia].
Qed.

Lemma struct_pack_I_none bo n : 4294967296 <= n -> struct_pack_I bo n = None.
Proof.
  intros Hn. unfold struct_pack_I. destruct (N.ltb_spec n 4294967296); [lia|reflexivity].
Qed.

(** ASCII text is its own UTF-8 encoding. *)
Lemma utf8_encode_ascii s :
  Forall (fun c => c < 128) s -> utf8_encode s = Some (List.map byte_of_N s).
Proof.
  induction 1 as [|c s Hc _ IH]; [reflexivity|].
  cbn [utf8_encode List.map]. rewrite IH. unfold utf8_encode_char.
  destruct (N.ltb_spec c 128); [reflexivity|lia].
Qed.


Lemma join_ascii sep parts :
  Forall (fun c => c < 128) sep ->
  Forall (Forall (fun c => c < 128)) parts ->
  Forall (fun c => c < 128) (join sep parts).
Proof.
  intros Hsep H. induction H as [|p ps Hp _ IH]; [constructor|].
  destruct ps as [|q ps']; [exact Hp|].
  rewrite join_cons2. repeat (apply Forall_app; split); assumption.
Qed.

Lemma ascii_text_Forall t : ascii_text t = true -> Forall (fun c => c < 128) t.
Proof.
  unfold ascii_text. rewrite forallb_forall, Forall_forall.
  intros H c Hc. apply N.ltb_lt. auto.
Qed.

(** [json.dumps] writes ASCII only. *)
Lemma json_dumps_ascii v :
  floats_printable v = true -> Forall (fun c => c < 128) (json_text v).
Proof.
  assert (Hsep : Forall (fun c => c < 128) item_separator) by (repeat constructor; lia).
  induction v as [|b|z|t|s|items IH|fields IH] using json_ind; intros Hfp.
  - repeat constructor; lia.
  - destruct b; repeat constructor; lia.
  - apply int_repr_ascii.
  - apply ascii_text_Forall. assumption.
  - apply encode_basestring_ascii_ascii.
  - cbn [json_text floats_printable] in *. constructor; [lia|].
    apply Forall_app. split; [|repeat constructor; lia].
    apply join_ascii; [assumption|].
    rewrite forallb_forall in Hfp. rewrite Forall_forall in IH |- *.
    intros p Hp. apply in_map_iff in Hp. destruct Hp as (x & <- & Hx). auto.
  - cbn [json_text floats_printable] in *. constructor; [lia|].
    apply Forall_app. split; [|repeat constructor; lia].
    apply join_ascii; [assumption|].
    rewrite forallb_forall in Hfp. rewrite Forall_forall in IH |- *.
    intros p Hp. apply in_map_iff in Hp. destruct Hp as (x & <- & Hx).
    repeat (apply Forall_app; split).
    + apply encode_basestring_ascii_ascii.
    + repeat constructor; lia.
    + auto.
Qed.


Lemma len_map {A B} (f : A -> B) l : len (List.map f l) = len l.
Proof. unfold len. rewrite length_map. reflexivity. Qed.


(** What [send_message] does, by what [json.dumps] does and by the size
    of the encoded text. *)
Lemma send_message_cases `{RT : Runtime} bo v out :
  floats_printable v = true ->
  let payload := List.map byte_of_N (json_text v) in
  utf8_encode (json_text v) = Some payload
  /\ (json_dumps v = None -> send_message bo v out = out)
  /\ (json_dumps v = Some (json_text v) ->
      len payload < 4294967296 ->
      exists header,
        struct_pack_I bo (len payload) = Some header
        /\ send_message bo v out
           = {| flushed := flushed out ++ pending out ++ header ++ payload;
                pending := [] |})
  /\ (4294967296 <= len payload -> send_message bo v out = out).
Proof.
  intros Hfp payload.
  assert (Henc : utf8_encode (json_text v) = Some payload).
  { apply utf8_encode_ascii, json_dumps_ascii. assumption. }
  split; [assumption|]. unfold send_message. split; [intros ->; reflexivity|]. split.
  - intros -> Hlen. rewrite Henc. destruct (struct_pack_I_some bo _ Hlen) as [header Hh].
    exists header. split; [assumption|]. rewrite Hh.
    unfold stdout_flush, stdout_write. cbn [flushed pending].
    rewrite <- !app_assoc. reflexivity.
  - intros Hlen. destruct (json_dumps v) as [text|] eqn:E; [|reflexivity].
    apply json_dumps_inv in E. destruct E as [_ ->].
    rewrite Henc, (struct_pack_I_none bo _ Hlen). reflexivity.
Qed.

(** *** Frames *)

(** C8, as the code has it.  When [json.dumps] raises, the exception is
    caught and nothing is written.  When it returns a text whose UTF-8
    encoding is shorter than 2^32 bytes, [send_message] writes one frame
    and nothing else: the four bytes of the length of that text in native
    byte order, then the text, and the output is flushed.  For a longer
    text [struct.pack] raises, the exception is caught and nothing is
    written. *)
Theorem send_message_writes_one_frame `{RT : Runtime} (bo : byteorder) (v : json)
    (out : stdout_state) :
  floats_printable v = true ->
  (json_dumps v = None -> send_message bo v out = out)
  /\ forall text,
       json_dumps v = Some text ->
       exists payload,
         utf8_encode text = Some payload
         /\ (len payload < 4294967296 ->
             exists header,
               List.length header = 4%nat
               /\ struct_unpack_I bo header = Some (len payload)
               /\ send_message bo v out
                  = {| flushed := flushed out ++ pending out ++ header ++ payload;
                       pending := [] |})
         /\ (4294967296 <= len payload -> send_message bo v out = out).
Proof.
  intros Hfp.
  destruct (send_message_cases bo v out Hfp) as (Henc & Hnone & Hsmall & Hbig).
  split; [assumption|]. intros text Htext.
  destruct (json_dumps_inv v text Htext) as [_ ->].
  exists (List.map byte_of_N (json_text v)). split; [assumption|]. split; [|assumption].
  intros Hlen. destruct (Hsmall Htext Hlen) as (header & Hpack & Hsend).
  destruct (struct_unpack_pack bo _ _ Hpack) as [H4 Hunpack].
  exists header. auto.
Qed.

Lemma send_message_writes_one_frame_witness :
  let v := port_response (JInt 5000) in
  json_dumps (RT := example_runtime) v = Some (json_text v)
  /\ exists payload,
       utf8_encode (json_text v) = Some payload
       /\ (len payload < 4294967296 ->
           exists header,
             List.length header = 4%nat
             /\ struct_unpack_I BigEndian header = Some (len payload)
             /\ send_message (RT := example_runtime) BigEndian v empty_stdout
                = {| flushed := flushed empty_stdout ++ pending empty_stdout
                                  ++ header ++ payload;
                     pending := [] |})
       /\ (4294967296 <= len payload ->
           send_message (RT := example_runtime) BigEndian v empty_stdout = empty_stdout).
Proof.
  intros v. split; [reflexivity|].
  apply (proj2 (send_message_writes_one_frame (RT := example_runtime) BigEndian v
                  empty_stdout eq_refl) (json_text v)).
  reflexivity.
Defined.

Lemma escape_plain_run n : flat_map escape_char (repeat 97 n) = repeat 97 n.
Proof. induction n as [|n IH]; [reflexivity|]. cbn [repeat flat_map]. rewrite IH. reflexivity. Qed.

Lemma len_dumps_plain_run n : len (json_text (JStr (repeat 97 n))) = N.of_nat n + 2.
Proof.
  cbn [json_text]. unfold encode_basestring_ascii, len.
  rewrite escape_plain_run. cbn [List.length]. rewrite length_app, repeat_length.
  cbn [List.length]. lia.
Qed.

(** A text of 2^32 bytes or more is dropped whole. *)
Lemma oversize_dropped `{RT : Runtime} bo v out :
  floats_printable v = true -> 4294967296 <= len (json_text v) ->
  send_message bo v out = out.
Proof.
  intros Hfp Hlen. destruct (send_message_cases bo v out Hfp) as (_ & _ & _ & Hbig).
  apply Hbig. rewrite len_map. assumption.
Qed.

(** A string is within the limits of the interpreter, whatever they are. *)
Lemma json_dumps_str `{RT : Runtime} s : json_dumps (JStr s) = Some (json_text (JStr s)).
Proof. reflexivity. Qed.

(** C8 as stated fails: [json.dumps] serializes a string of 2^32 - 2
    letters, its text is 2^32 bytes long, and [send_message] writes no
    frame for it. *)
Lemma four_gib_text_not_sent :
  let v := JStr (repeat 97 (N.to_nat 4294967294)) in
  json_dumps (RT := example_runtime) v = Some (json_text v)
  /\ len (json_text v) = 4294967296
  /\ send_message (RT := example_runtime) LittleEndian v empty_stdout = empty_stdout.
Proof.
  intros v. subst v.
  assert (Hlen : len (json_text (JStr (repeat 97 (N.to_nat 4294967294)))) = 4294967296).
  { rewrite len_dumps_plain_run, N2Nat.id. reflexivity. }
  split; [apply json_dumps_str|]. split; [exact Hlen|].
  apply oversize_dropped; [reflexivity|]. rewrite Hlen. apply N.le_refl.
Qed.




(** *** At the limits of the interpreter *)

Lemma json_dumps_none_iff `{RT : Runtime} v :
  json_dumps v = None
  <-> (nesting_limit < json_depth v)%nat \/ ints_printable v = false.
Proof.
  unfold json_dumps, within_limits.
  destruct (Nat.leb_spec (json_depth v) nesting_limit) as [Hd|Hd];
    destruct (ints_printable v);
    cbn [andb]; split; intros H; try discriminate; try reflexivity; auto;
    destruct H as [H|H]; try discriminate; lia.
Qed.

(** With a digit limit of 640, an int of 640 digits is written and read
    back, one of 641 digits is refused by [json.dumps] and by
    [json.loads], and [send_message] writes nothing for it. *)
Example int_at_the_digit_limit :
  let fits := JInt (10 ^ 640 - 1) in
  let long := JInt (10 ^ 640) in
  json_loads (RT := strict_runtime) (json_text fits) = Some fits
  /\ json_dumps (RT := strict_runtime) fits = Some (json_text fits)
  /\ len (json_text long) = 641
  /\ json_dumps (RT := strict_runtime) long = None
  /\ json_loads (RT := strict_runtime) (json_text long) = None
  /\ send_message (RT := strict_runtime) LittleEndian long empty_stdout = empty_stdout.
Proof. intros fits long. repeat apply conj; vm_compute; reflexivity. Qed.

(** With room for three nested lists, [[[[]]]] is written and read back,
    [[[[[]]]]] is refused by [json.dumps] and by [json.loads], and a frame
    that holds it is passed over like any other frame that fails to
    decode. *)
Example list_at_the_nesting_limit :
  json_text (nested 3) = str "[[[[]]]]"
  /\ json_loads (RT := strict_runtime) (json_text (nested 2)) = Some (nested 2)
  /\ json_dumps (RT := strict_runtime) (nested 2) = Some (json_text (nested 2))
  /\ json_dumps (RT := strict_runtime) (nested 3) = None
  /\ json_loads (RT := strict_runtime) (json_text (nested 3)) = None
  /\ main_step (RT := strict_runtime) offline_world
       {| stdin := ascii_frame (json_text (nested 3)) ++ ascii_frame (typed_message_text "ping");
          stdout := empty_stdout |}
     = Next {| stdin := ascii_frame (typed_message_text "ping"); stdout := empty_stdout |}.
Proof. repeat apply conj; vm_compute; reflexivity. Qed.

(** ** The iteration bounds of the decoder are never reached *)

(** The scanner's functions consume input: what they leave is shorter
    than what they were given.  Hence the iteration bound of the array
    and object loops, taken from the length of the text, never cuts a
    parse short. *)

Lemma push_char_some c o x r :
  push_char c o = Some (x, r) -> exists x', o = Some (x', r).
Proof.
  unfold push_char. destruct o as [[x' r']|]; [|discriminate].
  intros H. injection H as _ <-. eauto.
Qed.

Lemma scanstring_shrinks s x r :
  scanstring s = Some (x, r) -> (List.length r < List.length s)%nat.
Proof.
  remember (List.length s) as n eqn:En. revert s x r En.
  induction n as [n IH] using lt_wf_ind. intros s x r En H.
  assert (Hrec : forall c s' x r, (List.length s' < n)%nat ->
                   push_char c (scanstring s') = Some (x, r) ->
                   (List.length r < List.length s')%nat).
  { intros c s' x0 r0 Hlt Hp. apply push_char_some in Hp. destruct Hp as [x' Hp].
    eapply (IH _ Hlt); [reflexivity|eassumption]. }
  destruct s as [|c s1]; [discriminate|]. cbn [scanstring] in H.
  destruct (c =? 34).
  { injection H as _ <-. subst n. simpl. lia. }
  destruct (c =? 92).
  - destruct s1 as [|e s2]; [discriminate|].
    destruct (e =? 117).
    + destruct s2 as [|h1 [|h2 [|h3 [|h4 s3]]]]; try discriminate.
      destruct (hex4 h1 h2 h3 h4) as [u|]; [|discriminate].
      assert (Hs3 : forall x r, push_char u (scanstring s3) = Some (x, r) ->
                      (List.length r < n)%nat).
      { intros x0 r0 Hp. apply Hrec in Hp; subst n; simpl in *; lia. }
      destruct (is_high_surrogate u); [|eauto].
      destruct s3 as [|b [|y [|k1 [|k2 [|k3 [|k4 s4]]]]]]; eauto.
      destruct ((b =? 92) && (y =? 117)); eauto.
      destruct (hex4 k1 k2 k3 k4) as [u2|]; [|discriminate].
      destruct (is_low_surrogate u2); eauto.
      apply Hrec in H; subst n; simpl in *; lia.
    + destruct (unescape e) as [c'|]; [|discriminate].
      apply Hrec in H; subst n; simpl in *; lia.
  - destruct (c <=? 31); [discriminate|].
    apply Hrec in H; subst n; simpl in *; lia.
Qed.

Lemma skip_ws_length s : (List.length (skip_ws s) <= List.length s)%nat.
Proof.
  induction s as [|c s IH]; [simpl; lia|].
  simpl. destruct (is_whitespace c); simpl; lia.
Qed.

Lemma span_digits_length s :
  (List.length (snd (span_digits s)) <= List.length s)%nat.
Proof.
  induction s as [|c s IH]; [simpl; lia|].
  simpl. destruct (is_digit c); [|simpl; lia].
  destruct (span_digits s). simpl in *. lia.
Qed.

Section Shrinking.
Context {RT : Runtime}.

Lemma match_number_shrinks s v r :
  match_number s = Some (v, r) -> (List.length r < List.length s)%nat.
Proof.
  unfold match_number.
  assert (Hsign : (List.length (snd (match_sign s)) <= List.length s)%nat).
  { unfold match_sign. destruct s as [|c t]; [simpl; lia|].
    destruct (c =? 45); simpl; lia. }
  destruct (match_sign s) as [sign s1]. cbn [snd] in Hsign.
  assert (Hint : forall i r1, match_integer s1 = Some (i, r1) ->
                   (List.length r1 < List.length s1)%nat).
  { intros i r1. unfold match_integer. destruct s1 as [|c t]; [discriminate|].
    destruct ((49 <=? c) && (c <=? 57)).
    - pose proof (span_digits_length t) as Hsp. destruct (span_digits t) as [ds r'].
      intros E. injection E as _ <-. simpl in *. lia.
    - destruct (c =? 48); [|discriminate]. intros E. injection E as _ <-. simpl. lia. }
  destruct (match_integer s1) as [[integer r1]|]; [|discriminate].
  specialize (Hint _ _ eq_refl).
  assert (Hfrac : (List.length (snd (match_frac r1)) <= List.length r1)%nat).
  { unfold match_frac. destruct r1 as [|p [|d t]]; try (simpl; lia).
    destruct ((p =? 46) && is_digit d); [|simpl; lia].
    pose proof (span_digits_length t). destruct (span_digits t). simpl in *. lia. }
  destruct (match_frac r1) as [frac r2]. cbn [snd] in Hfrac.
  assert (Hexp : (List.length (snd (match_exp r2)) <= List.length r2)%nat).
  { unfold match_exp. destruct r2 as [|e t]; [simpl; lia|].
    destruct ((e =? 101) || (e =? 69)); [|simpl; lia].
    assert (Ht : forall sg t1, (List.length t1 <= List.length t)%nat ->
               (List.length (snd (let (ds, r) := span_digits t1 in
                                  match ds with
                                  | [] => ([], e :: t)
                                  | _ => (e :: sg ++ ds, r)
                                  end)) <= List.length (e :: t))%nat).
    { intros sg t1 Hle. pose proof (span_digits_length t1).
      destruct (span_digits t1) as [ds r']. destruct ds; simpl in *; lia. }
    destruct t as [|c t']; [apply (Ht []); simpl; lia|].
    destruct ((c =? 45) || (c =? 43)); apply Ht; simpl; lia. }
  destruct (match_exp r2) as [exp r3]. cbn [snd] in Hexp.
  intros H. assert (r = r3) as ->.
  { destruct frac; destruct exp; try (injection H as _ <-; reflexivity).
    destruct (parse_exceeds_limit integer); [discriminate|].
    injection H as _ <-. reflexivity. }
  lia.
Qed.

Lemma parse_array_loop_shrinks scan :
  consumes scan ->
  forall n s acc v r,
    parse_array_loop scan n s acc = Some (v, r) -> (List.length r < List.length s)%nat.
Proof.
  intros Hscan. induction n as [|n IH]; intros s acc v r H; [discriminate|].
  cbn [parse_array_loop] in H.
  destruct (scan s) as [[val s1]|] eqn:Es; [|discriminate].
  apply Hscan in Es. pose proof (skip_ws_length s1) as Hw.
  destruct (skip_ws s1) as [|c s2] eqn:Ew; [discriminate|].
  destruct (c =? 93).
  - injection H as _ <-. simpl in Hw. lia.
  - destruct (c =? 44); [|discriminate].
    apply IH in H. pose proof (skip_ws_length s2). simpl in Hw. lia.
Qed.

Lemma parse_object_loop_shrinks scan :
  consumes scan ->
  forall n s acc v r,
    parse_object_loop scan n s acc = Some (v, r) -> (List.length r < List.length s)%nat.
Proof.
  intros Hscan. induction n as [|n IH]; intros s acc v r H; [discriminate|].
  cbn [parse_object_loop] in H.
  destruct s as [|q t]; [discriminate|].
  destruct (q =? 34); [|discriminate].
  destruct (scanstring t) as [[key s1]|] eqn:Ek; [|discriminate].
  apply scanstring_shrinks in Ek. pose proof (skip_ws_length s1) as Hw1.
  destruct (skip_ws s1) as [|c s2]; [discriminate|].
  destruct (c =? 58); [|discriminate].
  pose proof (skip_ws_length s2) as Hw2.
  destruct (scan (skip_ws s2)) as [[val s3]|] eqn:Es; [|discriminate].
  apply Hscan in Es. pose proof (skip_ws_length s3) as Hw3.
  destruct (skip_ws s3) as [|c' s4]; [discriminate|].
  destruct (c' =? 125).
  - injection H as _ <-. simpl in *. lia.
  - destruct (c' =? 44); [|discriminate].
    apply IH in H. pose proof (skip_ws_length s4). simpl in *. lia.
Qed.

Lemma starts_with_skipn p s :
  p <> [] -> starts_with p s = true ->
  (List.length (skipn (List.length p) s) < List.length s)%nat.
Proof.
  intros Hp H. apply starts_with_prefix in H. destruct H as [r ->].
  rewrite length_skipn, length_app. destruct p; [congruence|]. simpl. lia.
Qed.

Lemma scan_once_consumes budget : consumes (scan_once budget).
Proof.
  induction budget as [|d IH]; intros s v r H;
    (destruct s as [|c t]; [discriminate|]); cbn [scan_once] in H;
    (destruct (c =? 34);
     [destruct (scanstring t) as [[x r']|] eqn:E; [|discriminate];
      injection H as _ <-; apply scanstring_shrinks in E; simpl; lia|]).
  - destruct (c =? 123); [discriminate|]. destruct (c =? 91); [discriminate|].
    repeat match type of H with
           | (if starts_with ?p ?s then _ else _) = _ =>
               destruct (starts_with p s) eqn:?;
               [injection H as _ <-;
                match goal with
                | E : starts_with ?p _ = true |- _ =>
                    apply (starts_with_skipn p) in E; [exact E|discriminate]
                end|]
           end.
    apply match_number_shrinks in H. assumption.
  - destruct (c =? 123).
    { unfold parse_object in H. pose proof (skip_ws_length t) as Hw.
      destruct (skip_ws t) as [|c' t']; [discriminate|].
      destruct (c' =? 125).
      - injection H as _ <-. simpl in *. lia.
      - apply (parse_object_loop_shrinks _ IH) in H. simpl in *. lia. }
    destruct (c =? 91).
    { unfold parse_array in H. pose proof (skip_ws_length t) as Hw.
      destruct (skip_ws t) as [|c' t']; [discriminate|].
      destruct (c' =? 93).
      - injection H as _ <-. simpl in *. lia.
      - apply (parse_array_loop_shrinks _ IH) in H. simpl in *. lia. }
    repeat match type of H with
           | (if starts_with ?p ?s then _ else _) = _ =>
               destruct (starts_with p s) eqn:?;
               [injection H as _ <-;
                match goal with
                | E : starts_with ?p _ = true |- _ =>
                    apply (starts_with_skipn p) in E; [exact E|discriminate]
                end|]
           end.
    apply match_number_shrinks in H. assumption.
Qed.
End Shrinking.

Section Bounds.
Context {RT : Runtime}.

Lemma consumes_nil scan : consumes scan -> scan [] = None.
Proof.
  intros H. destruct (scan []) as [[v r]|] eqn:E; [|reflexivity].
  apply H in E. simpl in E. lia.
Qed.

(** The iteration bound of the array loop is not reached. *)
Lemma parse_array_loop_bound scan :
  consumes scan ->
  forall n1 n2 s acc,
    (List.length s <= n1)%nat -> (List.length s <= n2)%nat ->
    parse_array_loop scan n1 s acc = parse_array_loop scan n2 s acc.
Proof.
  intros Hscan. pose proof (consumes_nil scan Hscan) as Hnil.
  induction n1 as [|n1 IH]; intros n2 s acc H1 H2.
  - destruct s; [|simpl in H1; lia]. destruct n2; [reflexivity|].
    cbn [parse_array_loop]. rewrite Hnil. reflexivity.
  - destruct n2 as [|n2].
    + destruct s; [|simpl in H2; lia]. cbn [parse_array_loop]. rewrite Hnil. reflexivity.
    + cbn [parse_array_loop].
      destruct (scan s) as [[val s1]|] eqn:Es; [|reflexivity].
      apply Hscan in Es. pose proof (skip_ws_length s1) as Hw.
      destruct (skip_ws s1) as [|c s2]; [reflexivity|].
      destruct (c =? 93); [reflexivity|]. destruct (c =? 44); [|reflexivity].
      pose proof (skip_ws_length s2). simpl in Hw. apply IH; lia.
Qed.

(** The iteration bound of the object loop is not reached. *)
Lemma parse_object_loop_bound scan :
  consumes scan ->
  forall n1 n2 s acc,
    (List.length s <= n1)%nat -> (List.length s <= n2)%nat ->
    parse_object_loop scan n1 s acc = parse_object_loop scan n2 s acc.
Proof.
  intros Hscan. induction n1 as [|n1 IH]; intros n2 s acc H1 H2.
  - destruct s; [|simpl in H1; lia]. destruct n2; reflexivity.
  - destruct n2 as [|n2].
    + destruct s; [|simpl in H2; lia]. reflexivity.
    + cbn [parse_object_loop].
      destruct s as [|q t]; [reflexivity|].
      destruct (q =? 34); [|reflexivity].
      destruct (scanstring t) as [[key s1]|] eqn:Ek; [|reflexivity].
      apply scanstring_shrinks in Ek. pose proof (skip_ws_length s1) as Hw1.
      destruct (skip_ws s1) as [|c s2]; [reflexivity|].
      destruct (c =? 58); [|reflexivity].
      pose proof (skip_ws_length s2) as Hw2.
      destruct (scan (skip_ws s2)) as [[val s3]|] eqn:Es; [|reflexivity].
      apply Hscan in Es. pose proof (skip_ws_length s3) as Hw3.
      destruct (skip_ws s3) as [|c' s4]; [reflexivity|].
      destruct (c' =? 125); [reflexivity|]. destruct (c' =? 44); [|reflexivity].
      pose proof (skip_ws_length s4). simpl in *. apply IH; lia.
Qed.

End Bounds.

(** ** The loop ends *)

Section Termination.
Context {RT : Runtime}.
Variable w : World.

Lemma stdin_read_length n input :
  (List.length (snd (stdin_read n input)) <= List.length input)%nat.
Proof. rewrite stdin_read_firstn. cbn [snd]. rewrite length_skipn. lia. Qed.

(** A decoded or skipped frame takes at least one byte off the input. *)
Lemma read_message_consumes bo input r rest :
  read_message bo input = (r, rest) ->
  (exists c, r = SystemExit c) \/ (List.length rest < List.length input)%nat.
Proof.
  rewrite read_message_of_try. unfold read_message_try.
  rewrite (stdin_read_firstn 4 input). change (N.to_nat 4) with 4%nat.
  destruct (firstn 4 input) as [|b0 raw'] eqn:E4.
  { intros H. injection H as <- _. eauto. }
  assert (Hlt : (List.length (skipn 4 input) < List.length input)%nat).
  { rewrite length_skipn. destruct input; [discriminate|]. simpl. lia. }
  destruct (struct_unpack_I bo (b0 :: raw')) as [n|].
  - pose proof (stdin_read_length n (skipn 4 input)) as Hle.
    destruct (stdin_read n (skipn 4 input)) as [payload stdin2]. cbn [snd] in Hle.
    destruct (utf8_decode payload) as [message|].
    + destruct (json_loads message); intros H; injection H as _ <-; right; lia.
    + intros H; injection H as _ <-; right; lia.
  - intros H; injection H as _ <-; right; exact Hlt.
Qed.

Lemma main_step_consumes p p' :
  main_step w p = Next p' -> (List.length (stdin p') < List.length (stdin p))%nat.
Proof.
  unfold main_step.
  destruct (read_message (sys_byteorder w) (stdin p)) as [r rest] eqn:E.
  apply read_message_consumes in E.
  destruct r as [message|e|c].
  - destruct E as [[c Hc]|E]; [discriminate|].
    destruct (negb (truthy message)).
    + intros H. injection H as <-. exact E.
    + destruct (py_get message (str "type") JNull) as [msg_type|e|c]; try discriminate.
      destruct (respond w message msg_type); try discriminate.
      intros H. injection H as <-. exact E.
  - destruct E as [[c Hc]|E]; [discriminate|]. intros H. injection H as <-. exact E.
  - discriminate.
Qed.

(** On a finite input the loop ends: by [SystemExit] or by an exception
    that escapes it. *)
Theorem main_terminates fuel p :
  (List.length (stdin p) < fuel)%nat ->
  exists s, main fuel w p = Some s /\ forall p', s <> Next p'.
Proof.
  revert p. induction fuel as [|fuel IH]; intros p Hlen; [lia|].
  rewrite main_unfold. destruct (main_step w p) as [p'|e p'|c p'] eqn:E.
  - apply IH. apply main_step_consumes in E. lia.
  - eexists. split; [reflexivity|]. discriminate.
  - eexists. split; [reflexivity|]. discriminate.
Qed.

(** The process ends with an exit code. *)
Corollary script_terminates p :
  exists code p', script (S (List.length (stdin p))) w p = Some (code, p').
Proof.
  destruct (main_terminates (S (List.length (stdin p))) p (Nat.lt_succ_diag_r _))
    as (s & Hs & Hnext).
  unfold script. rewrite Hs. destruct s as [p'|e p'|c p']; eauto.
  exfalso. exact (Hnext p' eq_refl).
Qed.
End Termination.

(** * Further properties of the host *)

Section Handlers.
Context {RT : Runtime}.
Variable w : World.

Lemma dict_get_absent d k default : dict_mem d k = false -> dict_get d k default = default.
Proof.
  induction d as [|[k' v] d IH]; [reflexivity|].
  cbn [dict_mem dict_get]. rewrite orb_false_iff. intros [-> H]. auto.
Qed.

(** The results [forward_to_vscode] builds. *)
Lemma forward_to_vscode_shape message result :
  forward_to_vscode w message = Return result ->
  (exists status body, result = success_result status body)
  \/ (exists msg, result = failure msg).
Proof.
  rewrite forward_to_vscode_handler.
  destruct (forward_try w (get_vscode_port w) message) as [r|e|c] eqn:E.
  - intros H. injection H as <-. revert E. unfold forward_try, py_get.
    destruct message; try discriminate.
    destruct (requests_post w _ _) as [resp|e]; [|discriminate].
    destruct (ok resp).
    + destruct (text resp); [|destruct (json_method resp); [|discriminate]];
        intros H; injection H as <-; left; eexists; eexists; reflexivity.
    + intros H. injection H as <-. right. eexists. reflexivity.
  - destruct (is_ConnectionError e); [|destruct (is_Timeout e)];
      intros H; injection H as <-; right; eexists; reflexivity.
  - discriminate.
Qed.


Lemma respond_never_exits message msg_type c : respond w message msg_type <> SystemExit c.
Proof.
  unfold respond.
  destruct (py_eq_str msg_type "ping").
  { unfold py_get. destruct message; discriminate. }
  destruct (py_eq_str msg_type "get_port"); [discriminate|].
  destruct (py_eq_str msg_type "forward").
  { destruct (forward_to_vscode_returns w message) as [r ->]. discriminate. }
  destruct (py_eq_str msg_type "check_status"); discriminate.
Qed.

End Handlers.

(** X1. A [ping] message is answered with [{type: "pong", echo: data}],
    where [data] is the message's [data] field, and [null] when the
    message has none. *)
Theorem ping_echoes_data `{RT : Runtime} (w : World) (p : process) (d : dict)
    (rest : bytes) :
  read_message (sys_byteorder w) (stdin p) = (Return (JObj d), rest) ->
  dict_get d (str "type") JNull = JStr (str "ping") ->
  main_step w p =
  Next {| stdin := rest;
          stdout := send_message (sys_byteorder w)
                      (JObj [ (str "type", JStr (str "pong"));
                              (str "echo", dict_get d (str "data") JNull) ])
                      (stdout p) |}
  /\ (dict_mem d (str "data") = false ->
      main_step w p =
      Next {| stdin := rest;
              stdout := send_message (sys_byteorder w)
                          (JObj [ (str "type", JStr (str "pong")); (str "echo", JNull) ])
                          (stdout p) |}).
Proof.
  intros Hread Hty.
  assert (Hstep : main_step w p =
                  Next {| stdin := rest;
                          stdout := send_message (sys_byteorder w)
                                      (JObj [ (str "type", JStr (str "pong"));
                                              (str "echo", dict_get d (str "data") JNull) ])
                                      (stdout p) |}).
  { rewrite (main_step_dict w p d rest _ Hread (dict_get_nonempty _ _ _ Hty) Hty).
    reflexivity. }
  split; [exact Hstep|]. intros Hno. rewrite Hstep, (dict_get_absent d _ JNull Hno).
  reflexivity.
Qed.

Lemma ping_echoes_data_witness :
  let d := [ (str "type", JStr (str "ping")); (str "data", JArr [JInt 1; JStr (str "x")]) ] in
  main_step (RT := example_runtime) offline_world
    {| stdin := ascii_frame (json_text (JObj d)); stdout := empty_stdout |}
  = Next {| stdin := [];
            stdout := send_message (RT := example_runtime) LittleEndian
                        (JObj [ (str "type", JStr (str "pong"));
                                (str "echo", JArr [JInt 1; JStr (str "x")]) ])
                        empty_stdout |}.
Proof.
  intros d.
  apply (ping_echoes_data (RT := example_runtime) offline_world
           {| stdin := ascii_frame (json_text (JObj d)); stdout := empty_stdout |} d []);
    vm_compute; reflexivity.
Defined.

(** X2. A [forward] message never makes the loop raise: it is answered
    with the result of [forward_to_vscode] behind a [type] of
    ["forward_result"], the result being either
    [{success: true, status, data}] or [{success: false, error}]. *)
Theorem forward_result_response `{RT : Runtime} (w : World) (p : process) (d : dict)
    (rest : bytes) :
  read_message (sys_byteorder w) (stdin p) = (Return (JObj d), rest) ->
  dict_get d (str "type") JNull = JStr (str "forward") ->
  exists result,
    forward_to_vscode w (JObj d) = Return result
    /\ ((exists status body,
           result = [ (str "success", JBool true); (str "status", JInt status);
                      (str "data", body) ])
        \/ (exists msg, result = [ (str "success", JBool false); (str "error", JStr msg) ]))
    /\ main_step w p =
       Next {| stdin := rest;
               stdout := send_message (sys_byteorder w)
                           (JObj ((str "type", JStr (str "forward_result")) :: result))
                           (stdout p) |}.
Proof.
  intros Hread Hty.
  destruct (forward_to_vscode_returns w (JObj d)) as [result Hres].
  exists result. split; [assumption|].
  pose proof (forward_to_vscode_shape w _ _ Hres) as Hshape.
  split; [exact Hshape|].
  rewrite (main_step_dict w p d rest _ Hread (dict_get_nonempty _ _ _ Hty) Hty).
  unfold respond.
  change (py_eq_str (JStr (str "forward")) "ping") with false.
  change (py_eq_str (JStr (str "forward")) "get_port") with false.
  change (py_eq_str (JStr (str "forward")) "forward") with true. cbv iota.
  rewrite Hres.
  destruct Hshape as [(status & body & ->)|(msg & ->)]; reflexivity.
Qed.

Lemma forward_result_response_witness :
  let d := [ (str "type", JStr (str "forward")) ] in
  exists result,
    forward_to_vscode (RT := example_runtime) offline_world (JObj d) = Return result
    /\ ((exists status body,
           result = [ (str "success", JBool true); (str "status", JInt status);
                      (str "data", body) ])
        \/ (exists msg, result = [ (str "success", JBool false); (str "error", JStr msg) ]))
    /\ main_step (RT := example_runtime) offline_world
         {| stdin := ascii_frame (json_text (JObj d)); stdout := empty_stdout |}
       = Next {| stdin := [];
                 stdout := send_message (RT := example_runtime) LittleEndian
                             (JObj ((str "type", JStr (str "forward_result")) :: result))
                             empty_stdout |}.
Proof.
  intros d.
  apply (forward_result_response (RT := example_runtime) offline_world
           {| stdin := ascii_frame (json_text (JObj d)); stdout := empty_stdout |} d []);
    vm_compute; reflexivity.
Defined.

(** The port depends on the world through the port file only. *)
Lemma get_vscode_port_port_file `{RT : Runtime} (w w' : World) :
  port_file w' = port_file w -> get_vscode_port w' = get_vscode_port w.
Proof. unfold get_vscode_port. intros ->. reflexivity. Qed.

(** The request [forward_to_vscode] makes for a message without
    [endpoint] and [data]. *)
Lemma forward_try_defaults `{RT : Runtime} (w : World) (port : json) (d : dict) :
  dict_mem d (str "endpoint") = false ->
  dict_mem d (str "data") = false ->
  forward_try w port (JObj d) =
  match requests_post w (str "http://localhost:" ++ py_str port ++ str "/visit") (JObj []) with
  | inr e => Raise e
  | inl response =>
      if ok response then
        match (match text response with [] => inl JNull | _ => json_method response end) with
        | inl body => Return (success_result (status_code response) body)
        | inr e => Raise e
        end
      else Return (failure (str "VS Code returned status "
                              ++ int_repr (status_code response)))
  end.
Proof.
  intros He Hd. unfold forward_try, py_get.
  rewrite (dict_get_absent d _ _ He), (dict_get_absent d _ _ Hd). reflexivity.
Qed.

(** X3. For a forward message without [endpoint] and [data],
    [forward_to_vscode] POSTs the empty object to [/visit] on the
    configured port: an exception of that request is the one raised
    inside its [try], an error status of that request is the one
    reported, and a world with the same port file that answers that one
    request alike gives the same result. *)
Theorem forward_defaults `{RT : Runtime} (w : World) (d : dict) :
  dict_mem d (str "endpoint") = false ->
  dict_mem d (str "data") = false ->
  let url := str "http://localhost:" ++ py_str (get_vscode_port w) ++ str "/visit" in
  (forall e,
     requests_post w url (JObj []) = inr e ->
     forward_try w (get_vscode_port w) (JObj d) = Raise e)
  /\ (forall response,
        requests_post w url (JObj []) = inl response -> ok response = false ->
        forward_to_vscode w (JObj d)
        = Return [ (str "success", JBool false);
                   (str "error", JStr (str "VS Code returned status "
                                         ++ int_repr (status_code response))) ])
  /\ (forall w',
        port_file w' = port_file w ->
        requests_post w' url (JObj []) = requests_post w url (JObj []) ->
        forward_to_vscode w' (JObj d) = forward_to_vscode w (JObj d)).
Proof.
  intros He Hd url. repeat split.
  - intros e Hpost. rewrite (forward_try_defaults w _ d He Hd). fold url.
    rewrite Hpost. reflexivity.
  - intros response Hpost Hok. unfold forward_to_vscode.
    rewrite (forward_try_defaults w _ d He Hd). fold url.
    rewrite Hpost, Hok. reflexivity.
  - intros w' Hfile Hpost. unfold forward_to_vscode.
    rewrite (get_vscode_port_port_file w w' Hfile).
    rewrite (forward_try_defaults w' _ d He Hd), (forward_try_defaults w _ d He Hd).
    fold url. rewrite Hpost. reflexivity.
Qed.

Lemma forward_defaults_witness :
  let d := [ (str "type", JStr (str "forward")) ] in
  let r := {| status_code := 503; text := []; json_method := inl JNull |} in
  forward_try (RT := example_runtime) offline_world (JInt 5000) (JObj d)
  = Raise (ConnectionError (str "refused"))
  /\ forward_to_vscode (RT := example_runtime) (answering_world r) (JObj d)
     = Return [ (str "success", JBool false);
                (str "error", JStr (str "VS Code returned status 503")) ].
Proof.
  intros d r. split.
  - apply (proj1 (forward_defaults (RT := example_runtime) offline_world d
                    eq_refl eq_refl) (ConnectionError (str "refused"))).
    reflexivity.
  - apply (proj1 (proj2 (forward_defaults (RT := example_runtime) (answering_world r) d
                           eq_refl eq_refl)) r); reflexivity.
Defined.

Lemma dict_get_present d k a b : dict_mem d k = true -> dict_get d k a = dict_get d k b.
Proof.
  induction d as [|[k' v] d IH]; [discriminate|].
  cbn [dict_mem dict_get]. destruct (pystr_eqb k' k); [reflexivity|]. exact IH.
Qed.

(** X4. When the port file is read as a JSON object with a [port] key,
    [get_vscode_port] returns the value of that key, whatever it is (the
    default plays no part); in every other case (no file, a file that
    cannot be read, a text on which [json.load] raises, JSON that is not
    an object, an object without that key) it returns 5000. *)
Theorem get_vscode_port_cases `{RT : Runtime} (w : World) :
  (forall content data default,
     port_file w = FileText content ->
     json_loads content = Some (JObj data) ->
     dict_mem data (str "port") = true ->
     get_vscode_port w = dict_get data (str "port") default)
  /\ ((forall content data,
         port_file w = FileText content ->
         json_loads content = Some (JObj data) ->
         dict_mem data (str "port") = false) ->
      get_vscode_port w = JInt 5000).
Proof.
  unfold get_vscode_port, default_port. split.
  - intros content data default -> -> Hmem. apply dict_get_present. assumption.
  - intros H. destruct (port_file w) as [| |content]; try reflexivity.
    destruct (json_loads content) as [[| | | | | |data]|] eqn:Ej; try reflexivity.
    apply dict_get_absent. exact (H content data eq_refl Ej).
Qed.

Lemma get_vscode_port_cases_witness :
  get_vscode_port (RT := example_runtime)
    (with_port_file (FileText (port_file_text "5432")) offline_world)
  = JInt 5432
  /\ get_vscode_port (RT := example_runtime)
       (with_port_file (FileText (str "[5432]")) offline_world)
     = JInt 5000.
Proof.
  split.
  - apply (proj1 (get_vscode_port_cases (RT := example_runtime)
                    (with_port_file (FileText (port_file_text "5432")) offline_world))
             (port_file_text "5432") [ (str "port", JInt 5432) ] JNull);
      vm_compute; reflexivity.
  - apply (proj2 (get_vscode_port_cases (RT := example_runtime)
                    (with_port_file (FileText (str "[5432]")) offline_world))).
    intros content data Hfile Hloads. cbn [with_port_file port_file] in Hfile.
    injection Hfile as <-. vm_compute in Hloads. discriminate Hloads.
Defined.



Section Runs.
Context {RT : Runtime}.
Variable w : World.

Lemma read_message_exit bo input c rest :
  read_message bo input = (SystemExit c, rest) -> c = 0%Z /\ input = [] /\ rest = [].
Proof.
  rewrite read_message_of_try. unfold read_message_try.
  destruct input as [|b input'].
  - cbn. intros H. injection H as <- <-. auto.
  - destruct (stdin_read 4 (b :: input')) as [raw r1] eqn:E4.
    assert (Hraw : raw <> []).
    { intros ->. pose proof (proj1 (stdin_read_empty_iff (b :: input'))) as H.
      rewrite E4 in H. specialize (H eq_refl). discriminate. }
    destruct raw as [|b0 raw']; [congruence|].
    destruct (struct_unpack_I bo (b0 :: raw')); [|discriminate].
    destruct (stdin_read n r1) as [payload r2].
    destruct (utf8_decode payload); [|discriminate].
    destruct (json_loads p); discriminate.
Qed.

Lemma main_step_exits p c p' :
  main_step w p = Exits c p' -> c = 0%Z /\ stdin p = [] /\ p' = p.
Proof.
  unfold main_step.
  destruct (read_message (sys_byteorder w) (stdin p)) as [r rest] eqn:E.
  destruct r as [message|e|c0].
  - destruct (negb (truthy message)); [discriminate|].
    destruct (py_get message (str "type") JNull) as [msg_type|e|c0] eqn:Eg.
    + destruct (respond w message msg_type) as [r|e|c0] eqn:Er; try discriminate.
      exfalso. exact (respond_never_exits w _ _ _ Er).
    + discriminate.
    + unfold py_get in Eg. destruct message; discriminate.
  - discriminate.
  - apply read_message_exit in E. destruct E as (-> & Hin & ->).
    intros H. injection H as <- <-. repeat split; try assumption.
    destruct p as [i o]. simpl in *. subst. reflexivity.
Qed.

Lemma main_exits fuel p c p' :
  main fuel w p = Some (Exits c p') -> c = 0%Z /\ stdin p' = [].
Proof.
  revert p. induction fuel as [|fuel IH]; intros p; [discriminate|].
  rewrite main_unfold. destruct (main_step w p) as [q|e q|c0 q] eqn:E.
  - apply IH.
  - discriminate.
  - intros H. injection H as <- <-. apply main_step_exits in E.
    destruct E as (-> & Hin & ->). auto.
Qed.

Lemma send_message_appends bo v out :
  exists more,
    flushed (send_message bo v out) ++ pending (send_message bo v out)
    = (flushed out ++ pending out) ++ more
    /\ (pending out = [] -> pending (send_message bo v out) = [])
    /\ (pending out = [] -> flushed (send_message bo v out) = flushed out ++ more).
Proof.
  unfold send_message.
  destruct (json_dumps v) as [text|]; [|exists []; rewrite !List.app_nil_r; auto].
  destruct (utf8_encode text) as [encoded|].
  - destruct (struct_pack_I bo (len encoded)) as [header|].
    + exists (header ++ encoded). unfold stdout_flush, stdout_write. cbn [flushed pending].
      rewrite List.app_nil_r, <- !app_assoc. repeat split; auto.
      intros ->. reflexivity.
    + exists []. rewrite !List.app_nil_r. auto.
  - exists []. rewrite !List.app_nil_r. auto.
Qed.

Lemma main_step_output p s :
  main_step w p = s ->
  pending (stdout p) = [] ->
  pending (stdout (step_process s)) = []
  /\ exists more, flushed (stdout (step_process s)) = flushed (stdout p) ++ more.
Proof.
  intros <- Hp. unfold main_step.
  assert (Hsame : forall q, stdout q = stdout p ->
            pending (stdout q) = [] /\ exists more, flushed (stdout q) = flushed (stdout p) ++ more).
  { intros q ->. split; [assumption|]. exists []. rewrite List.app_nil_r. reflexivity. }
  destruct (read_message (sys_byteorder w) (stdin p)) as [r rest].
  destruct r as [message|e|c]; try (apply Hsame; reflexivity).
  destruct (negb (truthy message)); [apply Hsame; reflexivity|].
  destruct (py_get message (str "type") JNull) as [msg_type|e|c];
    try (apply Hsame; reflexivity).
  destruct (respond w message msg_type) as [r|e|c]; try (apply Hsame; reflexivity).
  cbn [step_process stdout].
  destruct (send_message_appends (sys_byteorder w) r (stdout p)) as (more & _ & H1 & H2).
  split; [auto|]. exists more. auto.
Qed.
End Runs.

(** X6. A decoded message that is truthy but not a dict (a number, a
    string, a non-empty list, [true]) makes [message.get] raise inside
    [main]: the process ends with exit code 1 and writes nothing for it. *)
Theorem non_dict_message_is_fatal `{RT : Runtime} (w : World) (p : process)
    (message : json) (rest : bytes) (fuel : nat) :
  read_message (sys_byteorder w) (stdin p) = (Return message, rest) ->
  truthy message = true ->
  (forall d, message <> JObj d) ->
  script (S fuel) w p = Some (1%Z, {| stdin := rest; stdout := stdout p |}).
Proof.
  intros Hread Htrue Hnd. unfold script. rewrite main_unfold.
  unfold main_step. rewrite Hread, Htrue. cbn [negb].
  unfold py_get. destruct message; try reflexivity.
  exfalso. exact (Hnd _ eq_refl).
Qed.

Lemma non_dict_message_is_fatal_witness :
  script (RT := example_runtime) 1 offline_world
    {| stdin := ascii_frame (str "[1]") ++ ascii_frame (typed_message_text "ping");
       stdout := empty_stdout |}
  = Some (1%Z, {| stdin := ascii_frame (typed_message_text "ping"); stdout := empty_stdout |}).
Proof.
  apply (non_dict_message_is_fatal (RT := example_runtime) offline_world
           {| stdin := ascii_frame (str "[1]") ++ ascii_frame (typed_message_text "ping");
              stdout := empty_stdout |}
           (JArr [JInt 1]) (ascii_frame (typed_message_text "ping")) 0).
  - vm_compute. reflexivity.
  - reflexivity.
  - discriminate.
Defined.

(** X7. On every finite input the process ends, with exit code 0 or 1,
    and exit code 0 is reached only with the whole input read. *)
Theorem script_exit_code `{RT : Runtime} (w : World) (p : process) :
  exists code p',
    script (S (List.length (stdin p))) w p = Some (code, p')
    /\ (code = 0%Z \/ code = 1%Z)
    /\ (code = 0%Z -> stdin p' = []).
Proof.
  destruct (main_terminates w (S (List.length (stdin p))) p (Nat.lt_succ_diag_r _))
    as (s & Hs & Hnext).
  unfold script. rewrite Hs. destruct s as [p'|e p'|c p'].
  - exfalso. exact (Hnext p' eq_refl).
  - exists 1%Z, p'. split; [reflexivity|]. split; [auto|]. discriminate.
  - apply main_exits in Hs. destruct Hs as [-> Hin].
    exists 0%Z, p'. auto.
Qed.

(** X8. The loop only appends to what it has written, and leaves nothing
    in the output buffer: every frame it writes is flushed. *)
Theorem main_keeps_output `{RT : Runtime} (w : World) (fuel : nat) (p : process)
    (s : step) :
  main fuel w p = Some s ->
  pending (stdout p) = [] ->
  pending (stdout (step_process s)) = []
  /\ exists more, flushed (stdout (step_process s)) = flushed (stdout p) ++ more.
Proof.
  revert p. induction fuel as [|fuel IH]; intros p Hmain Hp; [discriminate|].
  rewrite main_unfold in Hmain.
  destruct (main_step_output w p _ eq_refl Hp) as [Hp1 (more1 & Hf1)].
  destruct (main_step w p) as [q|e q|c q] eqn:E.
  - cbn [step_process] in Hp1, Hf1.
    destruct (IH q Hmain Hp1) as [Hp2 (more2 & Hf2)].
    split; [assumption|]. exists (more1 ++ more2).
    rewrite Hf2, Hf1, <- app_assoc. reflexivity.
  - injection Hmain as <-. split; [assumption|]. eauto.
  - injection Hmain as <-. split; [assumption|]. eauto.
Qed.

Lemma main_keeps_output_witness :
  let p := {| stdin := ascii_frame (typed_message_text "ping")
                       ++ ascii_frame (typed_message_text "get_port");
              stdout := {| flushed := [x2a]; pending := [] |} |} in
  let s := Exits 0 {| stdin := [];
                      stdout := send_message (RT := example_runtime) LittleEndian (port_response (JInt 5000))
                                  (send_message (RT := example_runtime) LittleEndian
                                     (JObj [ (str "type", JStr (str "pong"));
                                             (str "echo", JNull) ])
                                     {| flushed := [x2a]; pending := [] |}) |} in
  pending (stdout (step_process s)) = []
  /\ exists more, flushed (stdout (step_process s)) = [x2a] ++ more.
Proof.
  intros p s.
  apply (main_keeps_output (RT := example_runtime) offline_world 3 p s).
  - vm_compute. reflexivity.
  - reflexivity.
Defined.

(** X9. An exception is raised inside the [try] of [read_message] exactly
    in these cases: a length prefix of one to three bytes, a payload that
    is not UTF-8, a payload on which [json.loads] raises (a text that is
    not JSON, an int literal beyond the digit limit, nesting beyond what
    the interpreter allows). *)
Theorem read_message_try_raises_iff `{RT : Runtime} (bo : byteorder) (input rest : bytes) :
  (exists e, read_message_try bo input = (Raise e, rest)) <-> decode_failure bo input rest.
Proof.
  pose (w := {| sys_byteorder := bo; port_file := FileAbsent;
                requests_post := requests_post offline_world;
                requests_get := requests_get offline_world |}).
  split.
  - intros [e He]. exact (raises_decode_failure w input rest e He).
  - intros H. exact (decode_failure_raises w input rest H).
Qed.

(** X10. After a complete length prefix [read_message] takes the declared
    number of bytes off the input (or all that is left), whether or not
    they decode: the next read starts right behind them. *)
Theorem read_message_skips_declared_length `{RT : Runtime} (bo : byteorder)
    (header body : bytes) (n : N) :
  List.length header = 4%nat ->
  struct_unpack_I bo header = Some n ->
  snd (read_message bo (header ++ body)) = skipn (N.to_nat n) body.
Proof.
  intros H4 Hn. rewrite read_message_of_try. unfold read_message_try.
  rewrite (stdin_read_4_header header body H4).
  destruct header as [|b0 header']; [discriminate|].
  rewrite Hn, stdin_read_firstn.
  destruct (utf8_decode (firstn (N.to_nat n) body)) as [message|]; [|reflexivity].
  destruct (json_loads message); reflexivity.
Qed.

Lemma read_message_skips_declared_length_witness :
  snd (read_message (RT := example_runtime) LittleEndian
         ([x03; x00; x00; x00] ++ [xff; xfe; xfd; x01; x02]))
  = [x01; x02].
Proof.
  apply (read_message_skips_declared_length (RT := example_runtime) LittleEndian
           [x03; x00; x00; x00] [xff; xfe; xfd; x01; x02] 3); reflexivity.
Defined.

(** X11. A non-empty dict without a [type] key is answered with
    [{type: "error", error: "Unknown message type: None"}]. *)
Theorem missing_type_reported_as_None `{RT : Runtime} (w : World) (p : process)
    (d : dict) (rest : bytes) :
  read_message (sys_byteorder w) (stdin p) = (Return (JObj d), rest) ->
  d <> [] ->
  dict_mem d (str "type") = false ->
  main_step w p =
  Next {| stdin := rest;
          stdout := send_message (sys_byteorder w)
                      (JObj [ (str "type", JStr (str "error"));
                              (str "error", JStr (str "Unknown message type: None")) ])
                      (stdout p) |}.
Proof.
  intros Hread Hd Hno.
  apply (main_step_unknown w p d rest JNull Hread Hd (dict_get_absent d _ JNull Hno));
    reflexivity.
Qed.

Lemma missing_type_reported_as_None_witness :
  let d := [ (str "a", JInt 1) ] in
  main_step (RT := example_runtime) offline_world
    {| stdin := ascii_frame (json_text (JObj d)); stdout := empty_stdout |}
  = Next {| stdin := [];
            stdout := send_message (RT := example_runtime) LittleEndian (error_response (str "None")) empty_stdout |}.
Proof.
  intros d.
  apply (missing_type_reported_as_None (RT := example_runtime) offline_world
           {| stdin := ascii_frame (json_text (JObj d)); stdout := empty_stdout |} d []).
  - vm_compute. reflexivity.
  - discriminate.
  - reflexivity.
Defined.

(** ** Frames in sequence, and the helpers of the test suite *)

Section Frames.
Context {RT : Runtime}.




End Frames.



(** X13. [send_message] writes exactly the frame the test helper
    [encode_message] builds, flushed, and writes nothing when the helper
    raises. *)
Theorem send_message_writes_encode_message `{RT : Runtime} (bo : byteorder) (v : json)
    (out : stdout_state) :
  send_message bo v out =
  match encode_message bo v with
  | Some frame => {| flushed := flushed out ++ pending out ++ frame; pending := [] |}
  | None => out
  end.
Proof.
  unfold send_message, encode_message.
  destruct (json_dumps v) as [text|]; [|reflexivity].
  destruct (utf8_encode text) as [encoded|]; [|reflexivity].
  destruct (struct_pack_I bo (len encoded)) as [header|]; [|reflexivity].
  unfold stdout_flush, stdout_write. cbn [flushed pending].
  rewrite <- !app_assoc. reflexivity.
Qed.



(** X15. On a non-empty input the test helper [decode_message] and the
    body of [read_message] decode alike; on the empty input the helper
    raises [struct.error] where [read_message] exits with code 0. *)
Theorem decode_message_agrees_with_read_message `{RT : Runtime} (bo : byteorder)
    (data : bytes) :
  (data <> [] -> decode_message bo data = fst (read_message_try bo data))
  /\ decode_message bo [] = Raise StructError
  /\ fst (read_message_try bo []) = SystemExit 0.
Proof.
  split; [|split; [destruct bo; reflexivity|reflexivity]].
  intros Hne. unfold decode_message, read_message_try.
  rewrite (stdin_read_firstn 4 data). change (N.to_nat 4) with 4%nat.
  destruct (firstn 4 data) as [|b0 raw'] eqn:E4.
  { destruct data; [congruence|discriminate]. }
  destruct (struct_unpack_I bo (b0 :: raw')) as [n|]; [|reflexivity].
  rewrite stdin_read_firstn.
  destruct (utf8_decode (firstn (N.to_nat n) (skipn 4 data))) as [message|]; [|reflexivity].
  destruct (json_loads message); reflexivity.
Qed.

Lemma decode_message_agrees_with_read_message_witness :
  decode_message (RT := example_runtime) LittleEndian (ascii_frame (str "[1, 2]"))
  = fst (read_message_try (RT := example_runtime) LittleEndian (ascii_frame (str "[1, 2]"))).
Proof.
  apply (decode_message_agrees_with_read_message (RT := example_runtime) LittleEndian
           (ascii_frame (str "[1, 2]"))).
  vm_compute. discriminate.
Defined.

(** * The debugging launcher *)

Section Launcher.
Import DebugExtension.
Variable m : Machine.

Lemma find_chrome_paths path :
  find (os_path_exists m) (chrome_paths m (platform_system m)) = Some path ->
  find_chrome m = Some path.
Proof. unfold find_chrome. intros ->. reflexivity. Qed.

Lemma find_first {A} (f : A -> bool) before x after :
  (forall y, In y before -> f y = false) -> f x = true ->
  find f (before ++ x :: after) = Some x.
Proof.
  induction before as [|y before IH]; intros Hb Hx; cbn [app find].
  - rewrite Hx. reflexivity.
  - rewrite (Hb y (or_introl eq_refl)). apply IH; [|assumption].
    intros z Hz. apply Hb. right. assumption.
Qed.
End Launcher.

(** X16. What [find_chrome] returns is there: either one of the install
    paths of the platform, which exists, or, when none of those exists, a
    command name that [shutil.which] finds. *)
Theorem find_chrome_sound (m : DebugExtension.Machine) (path : string) :
  DebugExtension.find_chrome m = Some path ->
  (In path (DebugExtension.chrome_paths m (DebugExtension.platform_system m))
   /\ DebugExtension.os_path_exists m path = true)
  \/ (In path DebugExtension.path_commands
      /\ DebugExtension.found_on_path m path = true
      /\ forall q, In q (DebugExtension.chrome_paths m (DebugExtension.platform_system m)) ->
                   DebugExtension.os_path_exists m q = false).
Proof.
  unfold DebugExtension.find_chrome.
  destruct (find (DebugExtension.os_path_exists m)
              (DebugExtension.chrome_paths m (DebugExtension.platform_system m)))
    as [p|] eqn:E.
  - intros H. injection H as <-. left. apply find_some in E. exact E.
  - intros H. right. apply find_some in H. destruct H as [Hin Hf].
    repeat split; try assumption. intros q Hq. exact (find_none _ _ E q Hq).
Qed.

Lemma find_chrome_sound_witness :
  let m := {| DebugExtension.platform_system := "Linux"%string;
              DebugExtension.os_path_exists := String.eqb "/usr/bin/chromium";
              DebugExtension.shutil_which := fun _ => None;
              DebugExtension.os_path_expandvars := fun s => s |} in
  (In "/usr/bin/chromium"%string
      (DebugExtension.chrome_paths m (DebugExtension.platform_system m))
   /\ DebugExtension.os_path_exists m "/usr/bin/chromium" = true)
  \/ (In "/usr/bin/chromium"%string DebugExtension.path_commands
      /\ DebugExtension.found_on_path m "/usr/bin/chromium" = true
      /\ forall q, In q (DebugExtension.chrome_paths m (DebugExtension.platform_system m)) ->
                   DebugExtension.os_path_exists m q = false).
Proof.
  intros m. apply (find_chrome_sound m "/usr/bin/chromium"). reflexivity.
Defined.

(** X17. [find_chrome] prefers install paths in their listed order: the
    first install path of the platform that exists is returned, whatever
    is on the search path. *)
Theorem find_chrome_first_existing (m : DebugExtension.Machine)
    (before after : list string) (path : string) :
  DebugExtension.chrome_paths m (DebugExtension.platform_system m)
  = before ++ path :: after ->
  (forall q, In q before -> DebugExtension.os_path_exists m q = false) ->
  DebugExtension.os_path_exists m path = true ->
  DebugExtension.find_chrome m = Some path.
Proof.
  intros Hpaths Hbefore Hpath. apply find_chrome_paths.
  rewrite Hpaths. apply find_first; assumption.
Qed.

Lemma find_chrome_first_existing_witness :
  let m := {| DebugExtension.platform_system := "Darwin"%string;
              DebugExtension.os_path_exists :=
                fun p => negb (String.eqb p
                                 "/Applications/Google Chrome.app/Contents/MacOS/Google Chrome");
              DebugExtension.shutil_which := fun c => Some c;
              DebugExtension.os_path_expandvars := fun s => s |} in
  DebugExtension.find_chrome m
  = Some "/Applications/Google Chrome Canary.app/Contents/MacOS/Google Chrome Canary"%string.
Proof.
  intros m.
  apply (find_chrome_first_existing m
           ["/Applications/Google Chrome.app/Contents/MacOS/Google Chrome"%string]
           ["/Applications/Chromium.app/Contents/MacOS/Chromium"%string]).
  - reflexivity.
  - intros q [<-|[]]. reflexivity.
  - reflexivity.
Defined.

(** X18. [find_chrome] raises exactly when no install path of the
    platform exists and none of the four command names is found on the
    search path; on a platform other than Darwin, Windows and Linux only
    the search path counts. *)
Theorem find_chrome_fails_iff (m : DebugExtension.Machine) :
  (DebugExtension.find_chrome m = None <->
   (forall q, In q (DebugExtension.chrome_paths m (DebugExtension.platform_system m)) ->
              DebugExtension.os_path_exists m q = false)
   /\ (forall c, In c DebugExtension.path_commands ->
                 DebugExtension.found_on_path m c = false))
  /\ (DebugExtension.platform_system m <> "Darwin"%string ->
      DebugExtension.platform_system m <> "Windows"%string ->
      DebugExtension.platform_system m <> "Linux"%string ->
      DebugExtension.find_chrome m
      = find (DebugExtension.found_on_path m) DebugExtension.path_commands).
Proof.
  split.
  - unfold DebugExtension.find_chrome. split.
    + destruct (find (DebugExtension.os_path_exists m)
                  (DebugExtension.chrome_paths m (DebugExtension.platform_system m)))
        as [p|] eqn:E; [discriminate|].
      intros H. split; intros x Hx; [exact (find_none _ _ E x Hx)|exact (find_none _ _ H x Hx)].
    + intros [Hp Hc].
      destruct (find (DebugExtension.os_path_exists m)
                  (DebugExtension.chrome_paths m (DebugExtension.platform_system m)))
        as [p|] eqn:E.
      * apply find_some in E. destruct E as [Hin Hex]. rewrite (Hp p Hin) in Hex. discriminate.
      * destruct (find (DebugExtension.found_on_path m) DebugExtension.path_commands)
          as [c|] eqn:E'; [|reflexivity].
        apply find_some in E'. destruct E' as [Hin Hf]. rewrite (Hc c Hin) in Hf. discriminate.
  - intros H1 H2 H3. unfold DebugExtension.find_chrome, DebugExtension.chrome_paths.
    apply String.eqb_neq in H1, H2, H3. rewrite H1, H2, H3. reflexivity.
Qed.

(** X19. The argument list for Chrome starts with the executable and ends
    with the URL to open, and an empty URL falls back to
    [chrome://extensions] like a missing one. *)
Theorem chrome_args_ends (chrome_path profile_dir extension_dir : string)
    (a : DebugExtension.Args) :
  hd_error (DebugExtension.chrome_args chrome_path profile_dir extension_dir a)
  = Some chrome_path
  /\ last (DebugExtension.chrome_args chrome_path profile_dir extension_dir a) EmptyString
     = DebugExtension.start_url a
  /\ DebugExtension.start_url a <> EmptyString
  /\ (DebugExtension.url a = None \/ DebugExtension.url a = Some EmptyString ->
      DebugExtension.start_url a = "chrome://extensions"%string)
  /\ (forall u, DebugExtension.url a = Some u -> u <> EmptyString ->
                DebugExtension.start_url a = u).
Proof.
  unfold DebugExtension.chrome_args. split; [|split; [|split; [|split]]].
  - destruct (DebugExtension.auto_devtools a), (DebugExtension.headless a),
      (DebugExtension.verbose a); reflexivity.
  - apply last_last.
  - unfold DebugExtension.start_url. destruct (DebugExtension.url a) as [u|]; [|discriminate].
    destruct (String.eqb_spec u EmptyString); [discriminate|assumption].
  - unfold DebugExtension.start_url. intros [->| ->]; reflexivity.
  - unfold DebugExtension.start_url. intros u -> Hu.
    destruct (String.eqb_spec u EmptyString); [contradiction|reflexivity].
Qed.

(** X20. After [launch_chrome] on a new debugger, [cleanup] removes a
    directory exactly when a temporary profile was made: nothing when
    Chrome was not found or the profile is kept, and otherwise the
    directory [mkdtemp] made, if it still exists. *)
Theorem launch_then_cleanup (m : DebugExtension.Machine) (kept fresh extension_dir : string)
    (a : DebugExtension.Args) (still_exists : string -> bool) :
  let after := snd (DebugExtension.launch_chrome m kept fresh a
                      (DebugExtension.init extension_dir)) in
  (DebugExtension.find_chrome m = None \/ DebugExtension.keep_profile a = true ->
   DebugExtension.cleanup still_exists after = None)
  /\ (DebugExtension.find_chrome m <> None -> DebugExtension.keep_profile a = false ->
      fresh <> EmptyString ->
      DebugExtension.cleanup still_exists after
      = if still_exists fresh then Some fresh else None).
Proof.
  intros after. subst after. unfold DebugExtension.launch_chrome.
  destruct (DebugExtension.find_chrome m) as [chrome_path|].
  - unfold DebugExtension.create_debug_profile.
    destruct (DebugExtension.keep_profile a).
    + split; [reflexivity|discriminate].
    + split; [intros [H|H]; discriminate|].
      intros _ _ Hfresh. unfold DebugExtension.cleanup. cbn.
      destruct (String.eqb_spec fresh EmptyString); [contradiction|reflexivity].
  - split; [reflexivity|]. intros H. congruence.
Qed.

Lemma launch_then_cleanup_witness :
  let m := {| DebugExtension.platform_system := "Linux"%string;
              DebugExtension.os_path_exists := fun _ => true;
              DebugExtension.shutil_which := fun _ => None;
              DebugExtension.os_path_expandvars := fun s => s |} in
  let a := {| DebugExtension.url := None; DebugExtension.auto_devtools := false;
              DebugExtension.keep_profile := false; DebugExtension.headless := true;
              DebugExtension.verbose := false; DebugExtension.test := false |} in
  DebugExtension.cleanup (fun _ => true)
    (snd (DebugExtension.launch_chrome m "/home/u/.pkm-chrome-debug" "/tmp/pkm-chrome-debug-1" a
            (DebugExtension.init "/repo/chrome")))
  = Some "/tmp/pkm-chrome-debug-1"%string.
Proof.
  intros m a.
  apply (launch_then_cleanup m "/home/u/.pkm-chrome-debug" "/tmp/pkm-chrome-debug-1"
           "/repo/chrome" a (fun _ => true)); try reflexivity; vm_compute; discriminate.
Defined.

(** * Further edge cases of the host *)

(** X21. Called with a message that is not a dict, [forward_to_vscode]
    makes no request and returns
    [{success: false, error: "'<type>' object has no attribute 'get'"}]. *)
Theorem forward_to_vscode_non_dict `{RT : Runtime} (w : World) (message : json) :
  (forall d, message <> JObj d) ->
  forward_to_vscode w message
  = Return [ (str "success", JBool false);
             (str "error",
              JStr (str "'" ++ type_name message ++ str "' object has no attribute 'get'")) ].
Proof.
  intros Hnd. rewrite forward_to_vscode_handler.
  destruct message; try reflexivity. exfalso. exact (Hnd _ eq_refl).
Qed.

Lemma forward_to_vscode_non_dict_witness :
  forward_to_vscode (RT := example_runtime)
    (answering_world {| status_code := 200; text := []; json_method := inl JNull |})
    (JArr [JInt 1])
  = Return (failure (str "'list' object has no attribute 'get'")).
Proof.
  apply (forward_to_vscode_non_dict (RT := example_runtime)). discriminate.
Defined.

Lemma swapped_bytes_value n :
  n < 4294967296 ->
  N.lor (n / 16777216 mod 256)
    (N.lor (N.shiftl (n / 65536 mod 256) 8)
       (N.lor (N.shiftl (n / 256 mod 256) 16) (N.shiftl (n mod 256) 24)))
  = byteswap32 n.
Proof.
  intros Hn. unfold byteswap32. rewrite !land_255, !shiftr_div, !N.shiftl_mul_pow2.
  change (2 ^ 8) with 256. change (2 ^ 16) with 65536. change (2 ^ 24) with 16777216.
  rewrite (lor_add_disjoint (n / 256 mod 256 * 65536) _ 24)
    by (change (2 ^ 24) with 16777216; euclid).
  rewrite (lor_add_disjoint (n / 65536 mod 256 * 256) _ 16)
    by (change (2 ^ 16) with 65536; euclid).
  rewrite (lor_add_disjoint (n / 16777216 mod 256) _ 8)
    by (change (2 ^ 8) with 256; euclid).
  rewrite (N.lor_comm (n mod 256 * 16777216)).
  rewrite (N.lor_comm (n / 256 mod 256 * 65536)).
  rewrite (N.lor_comm (n / 65536 mod 256 * 256)).
  rewrite (lor_add_disjoint (n / 16777216 mod 256) _ 8)
    by (change (2 ^ 8) with 256; euclid).
  rewrite (lor_add_disjoint (n / 16777216 mod 256 + n / 65536 mod 256 * 256) _ 16)
    by (change (2 ^ 16) with 65536; euclid).
  rewrite (lor_add_disjoint _ _ 24)
    by (change (2 ^ 24) with 16777216; euclid).
  lia.
Qed.

(** X22. The length prefix depends on the byte order of the machine: a
    prefix packed in one byte order and unpacked in the other gives the
    length with its four bytes reversed, so a frame of fewer than 256
    bytes is announced as 2^24 times as long. *)
Theorem length_prefix_across_byte_orders (bo : byteorder) (n : N) (header : bytes) :
  struct_pack_I bo n = Some header ->
  struct_unpack_I (other_byteorder bo) header = Some (byteswap32 n)
  /\ (n < 256 -> byteswap32 n = n * 16777216).
Proof.
  unfold struct_pack_I. destruct (N.ltb_spec n 4294967296) as [Hn|Hn]; [|discriminate].
  intros H. apply (f_equal (fun o => match o with Some x => x | None => [] end)) in H.
  cbv beta iota in H. subst header.
  split.
  - assert (E : struct_unpack_I BigEndian
                  [byte_of_N n; byte_of_N (N.shiftr n 8); byte_of_N (N.shiftr n 16);
                   byte_of_N (N.shiftr n 24)] = Some (byteswap32 n)).
    { unfold struct_unpack_I. cbn [rev app]. rewrite !to_N_byte_of_N, !shiftr_div.
      change (2 ^ 8) with 256. change (2 ^ 16) with 65536. change (2 ^ 24) with 16777216.
      rewrite swapped_bytes_value by assumption. reflexivity. }
    destruct bo; exact E.
  - intros Hsmall. rewrite <- (swapped_bytes_value n Hn).
    rewrite !N.shiftl_mul_pow2.
    replace (n / 16777216 mod 256) with 0 by euclid.
    replace (n / 65536 mod 256) with 0 by euclid.
    replace (n / 256 mod 256) with 0 by euclid.
    rewrite N.mod_small by lia. cbn [N.mul N.lor]. reflexivity.
Qed.

Lemma length_prefix_across_byte_orders_witness :
  struct_unpack_I BigEndian [x10; x00; x00; x00] = Some (byteswap32 16)
  /\ (16 < 256 -> byteswap32 16 = 16 * 16777216).
Proof.
  apply (length_prefix_across_byte_orders LittleEndian 16 [x10; x00; x00; x00]).
  reflexivity.
Defined.
